(** * Scale Climber sound generator: waveform synthesis and export

    A shallow embedding of [scripts/generate-sounds.py].

    Conventions of the embedding.
    - A numpy [float64] array is a [list R]: samples are modelled by real
      numbers with ideal arithmetic, so rounding error, signed zeros, NaN and
      infinities are outside the model.  The concrete inputs used below are
      ones on which the float64 computation yields the same sample counts and
      the same sample values as the ideal one.
    - Python's [int(x)] on a float is truncation toward zero ([py_int]).
    - The numpy cast [np.int16(x)] is truncation toward zero followed by the
      two's-complement wrap of the C conversion ([to_int16]).
    - A Python exception is a [Raise] result; the only exception the
      synthesis functions can raise is [ValueError].
    - The external encoder ([ffmpeg]) is a parameter of the run: it is either
      absent, or a function giving the exit status of the process. *)

From Stdlib Require Import String Reals Lra Lia ZArith Bool List.
Import ListNotations.

Open Scope R_scope.

(** ** Exceptions and fallible results *)

Inductive exn : Set :=
| ValueError.

Inductive result (A : Type) : Type :=
| Ok (a : A)
| Raise (e : exn).

Arguments Ok {A} a.
Arguments Raise {A} e.

Definition rbind {A B : Type} (m : result A) (k : A -> result B) : result B :=
  match m with
  | Ok a => k a
  | Raise e => Raise e
  end.

Notation "x <- m ;; k" := (rbind m (fun x => k))
  (at level 61, m at next level, right associativity).

(** ** Numeric primitives *)

(** [SAMPLE_RATE = 48000] *)
Definition SAMPLE_RATE : R := 48000.

(** Python's [int(x)] for a float [x]: truncation toward zero. *)
Definition py_int (x : R) : Z :=
  if Rle_dec 0 x then Int_part x else (- Int_part (- x))%Z.

(** [np.linspace(start, stop, num, endpoint)]: [num] evenly spaced samples.
    The divisor is [num - 1] with the end point and [num] without it; sample
    [i] is [start + i * step] with [step = (stop - start) / div], and when the
    divisor is zero (no sample, or one sample with the end point) the index
    is multiplied by [stop - start] instead.  A negative [num] raises
    [ValueError]. *)
Definition linspace_samples (start stop : R) (n : nat) (endpoint : bool)
  : list R :=
  let div := if endpoint then (n - 1)%nat else n in
  let delta := stop - start in
  let step := if (0 <? div)%nat then delta / INR div else delta in
  map (fun i => INR i * step + start) (seq 0 n).

Definition linspace (start stop : R) (num : Z) (endpoint : bool)
  : result (list R) :=
  if (num <? 0)%Z then Raise ValueError
  else Ok (linspace_samples start stop (Z.to_nat num) endpoint).

(** [np.zeros(n)] and [np.ones(n)] *)
Definition zeros (n : nat) : list R := repeat 0 n.
Definition ones (n : nat) : list R := repeat 1 n.

(** Elementwise binary operation on two arrays of the same shape. *)
Fixpoint zip_with (f : R -> R -> R) (xs ys : list R) : list R :=
  match xs, ys with
  | x :: xs', y :: ys' => f x y :: zip_with f xs' ys'
  | _, _ => []
  end.

(** [np.cumsum]: running sums, the first one being the first element. *)
Fixpoint cumsum_from (acc : R) (xs : list R) : list R :=
  match xs with
  | [] => []
  | x :: xs' => (acc + x) :: cumsum_from (acc + x) xs'
  end.

Definition cumsum (xs : list R) : list R := cumsum_from 0 xs.

(** ** Waveform generators *)

(** [generate_tone(frequency, duration, volume)] *)
Definition generate_tone (frequency duration volume : R) : result (list R) :=
  let samples := py_int (SAMPLE_RATE * duration) in
  t <- linspace 0 duration samples false ;;
  Ok (map (fun ti => volume * sin (2 * PI * frequency * ti)) t).

(** [generate_multi_tone(frequencies, duration, volume)]: the loop body
    [wave += (volume / len(frequencies)) * np.sin(2 * np.pi * freq * t)]
    is folded over the list of frequencies. *)
Definition generate_multi_tone (frequencies : list R) (duration volume : R)
  : result (list R) :=
  let samples := py_int (SAMPLE_RATE * duration) in
  t <- linspace 0 duration samples false ;;
  let wave := zeros (Z.to_nat samples) in
  Ok (fold_left
        (fun wave freq =>
           zip_with Rplus wave
             (map (fun ti =>
                     (volume / INR (length frequencies))
                     * sin (2 * PI * freq * ti)) t))
        frequencies wave).

(** [generate_sweep(start_freq, end_freq, duration, volume)] *)
Definition generate_sweep (start_freq end_freq duration volume : R)
  : result (list R) :=
  let samples := py_int (SAMPLE_RATE * duration) in
  t <- linspace 0 duration samples false ;;
  freq <- linspace start_freq end_freq samples true ;;
  let phase := map (fun c => 2 * PI * c / SAMPLE_RATE) (cumsum freq) in
  Ok (map (fun p => volume * sin p) phase).

(** ** Envelope *)

(** Slice assignment [arr[lo:hi] = vals] for [lo <= hi <= len(arr)]: the
    right-hand side must have the length of the slice, or a single element,
    which is then broadcast over the slice; any other shape raises
    [ValueError]. *)
Definition set_slice (arr : list R) (lo hi : nat) (vals : list R)
  : result (list R) :=
  if (length vals =? hi - lo)%nat then
    Ok (firstn lo arr ++ vals ++ skipn hi arr)
  else
    match vals with
    | [v] => Ok (firstn lo arr ++ repeat v (hi - lo) ++ skipn hi arr)
    | _ => Raise ValueError
    end.

(** [apply_envelope(wave, attack, release)].  [envelope[:attack_samples]] is
    the slice from [0] to [min(attack_samples, samples)], and
    [envelope[-release_samples:]] the slice from
    [samples - min(release_samples, samples)] to [samples]. *)
Definition apply_envelope (wave : list R) (attack release : R)
  : result (list R) :=
  let samples := length wave in
  let attack_samples := py_int (SAMPLE_RATE * attack) in
  let release_samples := py_int (SAMPLE_RATE * release) in
  let envelope := ones samples in
  envelope <-
    (if (attack_samples >? 0)%Z then
       ramp <- linspace 0 1 attack_samples true ;;
       set_slice envelope 0 (Nat.min (Z.to_nat attack_samples) samples) ramp
     else Ok envelope) ;;
  envelope <-
    (if (release_samples >? 0)%Z then
       ramp <- linspace 1 0 release_samples true ;;
       set_slice envelope
         (samples - Nat.min (Z.to_nat release_samples) samples) samples ramp
     else Ok envelope) ;;
  Ok (zip_with Rmult wave envelope).

(** ** Exporter *)

(** The C conversion to a 16-bit signed integer: reduction modulo [2^16]
    into [-32768 .. 32767]. *)
Definition wrap16 (z : Z) : Z := ((z + 32768) mod 65536 - 32768)%Z.

(** [np.int16(x)] for a float [x]: the fraction is dropped and the integer
    is reduced to 16 bits; nothing saturates.  (The reduction is what the C
    conversion yields for integers within the 32-bit range.) *)
Definition to_int16 (x : R) : Z := wrap16 (py_int x).

(** [wave_normalized = np.int16(wave * 32767)] *)
Definition normalize (wave : list R) : list Z :=
  map (fun x => to_int16 (x * 32767)) wave.

(** [ndarray.tobytes()] of an [int16] array: two bytes per sample, least
    significant byte first. *)
Definition int16_bytes (z : Z) : list Z :=
  let u := (z mod 65536)%Z in [(u mod 256)%Z; (u / 256)%Z].

Definition tobytes (pcm : list Z) : list Z := flat_map int16_bytes pcm.

(** What the script prints. *)
Inductive message : Set :=
| MsgGenerating                                  (* Generating Scale Climber sound effects... *)
| MsgOutputDir                                   (* Output directory: {OUTPUT_DIR} *)
| MsgWarning (returncode : Z) (filename : string) (* Warning: ffmpeg returned {returncode} for {filename} *)
| MsgGenerated (filename : string)               (* Generated {filename} *)
| MsgFfmpegNotFound                              (* Error: ffmpeg not found. Please install ffmpeg ... *)
| MsgAllGenerated                                (* All sound effects generated successfully! *)
| MsgFilesSaved.                                 (* Files saved to: {OUTPUT_DIR} *)

(** What the script does to the outside world, in order. [Popen f started]
    is a call of [subprocess.Popen] with the command line for output file
    [f]; it raises [FileNotFoundError] exactly when [started] is [false].
    [Communicate f input rc] is a started process that was fed [input] and
    exited with status [rc]. *)
Inductive event : Set :=
| Print (m : message)
| Mkdir
| Popen (filename : string) (started : bool)
| Communicate (filename : string) (input : list Z) (returncode : Z).

(** The encoder found on the machine: [None] when there is no [ffmpeg]
    executable, otherwise the exit status of the process for an output file
    name and the bytes written to its standard input. *)
Definition encoder : Type := option (string -> list Z -> Z).

(** Computations that emit events and may raise. *)
Definition io (A : Type) : Type := (list event * result A)%type.

Definition ret {A : Type} (a : A) : io A := ([], Ok a).

Definition emit (e : event) : io unit := ([e], Ok tt).

Definition lift {A : Type} (r : result A) : io A := ([], r).

Definition iobind {A B : Type} (m : io A) (k : A -> io B) : io B :=
  match m with
  | (tr, Ok a) => let (tr', r) := k a in (tr ++ tr', r)
  | (tr, Raise e) => (tr, Raise e)
  end.

Declare Scope io_scope.
Delimit Scope io_scope with io.
Notation "x <- m ;; k" := (iobind m (fun x => k))
  (at level 61, m at next level, right associativity) : io_scope.
Notation "m ;; k" := (iobind m (fun _ => k))
  (at level 61, right associativity) : io_scope.

(** [save_as_opus(wave, filename)] *)
Definition save_as_opus (enc : encoder) (wave : list R) (filename : string)
  : io bool :=
  let wave_normalized := normalize wave in
  match enc with
  | Some ffmpeg =>
      let input := tobytes wave_normalized in
      let returncode := ffmpeg filename input in
      (emit (Popen filename true) ;;
       emit (Communicate filename input returncode) ;;
       (if (returncode =? 0)%Z
        then emit (Print (MsgGenerated filename))
        else emit (Print (MsgWarning returncode filename))) ;;
       ret true)%io
  | None =>
      (emit (Popen filename false) ;;
       emit (Print MsgFfmpegNotFound) ;;
       ret false)%io
  end.

(** [main()] *)
Definition main (enc : encoder) : io unit :=
  (emit (Print MsgGenerating) ;;
   emit (Print MsgOutputDir) ;;
   emit Mkdir ;;
   (* 1. Perfect *)
   wave <- lift (generate_multi_tone [800; 1000; 1200] 0.3 0.25) ;;
   wave <- lift (apply_envelope wave 0.01 0.1) ;;
   save_as_opus enc wave "perfect.opus" ;;
   (* 2. Great *)
   wave <- lift (generate_tone 600 0.3 0.3) ;;
   wave <- lift (apply_envelope wave 0.01 0.1) ;;
   save_as_opus enc wave "great.opus" ;;
   (* 3. OK *)
   wave <- lift (generate_tone 400 0.3 0.3) ;;
   wave <- lift (apply_envelope wave 0.02 0.1) ;;
   save_as_opus enc wave "ok.opus" ;;
   (* 4. Miss *)
   wave <- lift (generate_multi_tone [200; 210] 0.2 0.3) ;;
   wave <- lift (apply_envelope wave 0.01 0.05) ;;
   save_as_opus enc wave "miss.opus" ;;
   (* 5. Combo *)
   wave <- lift (generate_sweep 400 800 0.4 0.25) ;;
   wave <- lift (apply_envelope wave 0.01 0.1) ;;
   save_as_opus enc wave "combo.opus" ;;
   (* 6. Victory *)
   tone1 <- lift (generate_tone 523 0.15 0.3) ;;
   tone2 <- lift (generate_tone 659 0.15 0.3) ;;
   tone3 <- lift (generate_tone 784 0.3 0.3) ;;
   part1 <- lift (apply_envelope tone1 0.01 0.05) ;;
   part2 <- lift (apply_envelope tone2 0.01 0.05) ;;
   part3 <- lift (apply_envelope tone3 0.01 0.15) ;;
   let wave := part1 ++ part2 ++ part3 in
   save_as_opus enc wave "victory.opus" ;;
   (* 7. Failure *)
   wave <- lift (generate_sweep 400 200 0.5 0.25) ;;
   wave <- lift (apply_envelope wave 0.02 0.15) ;;
   save_as_opus enc wave "failure.opus" ;;
   (* 8. Click *)
   wave <- lift (generate_tone 1200 0.05 0.2) ;;
   wave <- lift (apply_envelope wave 0.005 0.02) ;;
   save_as_opus enc wave "click.opus" ;;
   emit (Print MsgAllGenerated) ;;
   emit (Print MsgFilesSaved))%io.

(** ** Derived notions used in the statements *)

(** The two ramps [apply_envelope] writes into the envelope. *)
Definition attack_ramp (a : nat) : list R := linspace_samples 0 1 a true.
Definition release_ramp (r : nat) : list R := linspace_samples 1 0 r true.

(** The envelope array of [apply_envelope] once both slice assignments are
    done, for windows of [a] and [r] samples on [n] samples: the release
    assignment is the later one and replaces whatever the last [r] positions
    held. *)
Definition envelope_of (n a r : nat) : list R :=
  firstn (n - r) (attack_ramp a ++ ones (n - a)) ++ release_ramp r.

(** The two assignments of [apply_envelope], each on an array of [n]
    samples, for a window of [z] samples. *)
Definition attack_step (n : nat) (env : list R) (z : Z) : result (list R) :=
  if (z >? 0)%Z then
    ramp <- linspace 0 1 z true ;;
    set_slice env 0 (Nat.min (Z.to_nat z) n) ramp
  else Ok env.

Definition release_step (n : nat) (env : list R) (z : Z) : result (list R) :=
  if (z >? 0)%Z then
    ramp <- linspace 1 0 z true ;;
    set_slice env (n - Nat.min (Z.to_nat z) n) n ramp
  else Ok env.

(** The envelope policy in the words of the specification: the attack ramp
    is applied to the buffer first, then the release ramp is applied to the
    already-modified buffer, so that both factors multiply a sample lying in
    both windows. *)
Definition spec_sequential_envelope (wave : list R) (a r : nat) : list R :=
  let n := length wave in
  let after_attack := zip_with Rmult wave (attack_ramp a ++ ones (n - a)) in
  zip_with Rmult after_attack (ones (n - r) ++ release_ramp r).

(** Saturation to the range [-32767 .. 32767], and the conversion to PCM in
    the words of the specification: scale, truncate, clip. *)
Definition clip16 (z : Z) : Z := Z.max (-32767) (Z.min 32767 z).

Definition spec_normalize_clipped (wave : list R) : list Z :=
  map (fun x => clip16 (py_int (x * 32767))) wave.

(** [z] is a rounding of [x] to a nearest integer (whatever the choice at a
    tie). *)
Definition nearest_integer (x : R) (z : Z) : Prop := Rabs (IZR z - x) <= 1 / 2.

(** Readings of a trace. *)
Fixpoint popen_calls (tr : list event) : list string :=
  match tr with
  | [] => []
  | Popen f _ :: tr' => f :: popen_calls tr'
  | _ :: tr' => popen_calls tr'
  end.

Fixpoint processes (tr : list event) : list (string * Z) :=
  match tr with
  | [] => []
  | Communicate f _ rc :: tr' => (f, rc) :: processes tr'
  | _ :: tr' => processes tr'
  end.

Fixpoint printed (tr : list event) : list message :=
  match tr with
  | [] => []
  | Print m :: tr' => m :: printed tr'
  | _ :: tr' => printed tr'
  end.

(** The events of one call of [save_as_opus], and of a batch of calls. *)
Definition export_events (enc : encoder) (wave : list R) (filename : string)
  : list event :=
  fst (save_as_opus enc wave filename).

Definition batch_events (enc : encoder) (cues : list (list R * string))
  : list event :=
  flat_map (fun c => export_events enc (fst c) (snd c)) cues.

(** The stopping policy in the words of the specification: once the missing
    encoder has been reported, no further export is attempted. *)
Definition stops_at_missing_encoder (tr : list event) : Prop :=
  forall before after,
    tr = before ++ Print MsgFfmpegNotFound :: after ->
    popen_calls after = [].

(** The output files of the eight cues, in the order [main] exports them. *)
Definition cue_files : list string :=
  ["perfect.opus"; "great.opus"; "ok.opus"; "miss.opus"; "combo.opus";
   "victory.opus"; "failure.opus"; "click.opus"]%string.

(** The sum of a list of reals, accumulated from the left as the loop of
    [generate_multi_tone] does. *)
Definition sum_list (xs : list R) : R := fold_left Rplus xs 0.

(** The array a generator returns, the empty array standing for an
    exception. *)
Definition samples_of_result (r : result (list R)) : list R :=
  match r with
  | Ok w => w
  | Raise _ => []
  end.

(** The reading of a raw [s16le] stream, the input format [save_as_opus]
    asks of the encoder: two bytes per sample, least significant byte first,
    in two's complement.  A trailing odd byte is dropped. *)
Fixpoint s16le_decode (bytes : list Z) : list Z :=
  match bytes with
  | lo :: hi :: rest => wrap16 (lo + 256 * hi) :: s16le_decode rest
  | _ => []
  end.

(** The encoder runs of a trace, with the bytes each one was fed. *)
Fixpoint encoder_inputs (tr : list event) : list (string * list Z) :=
  match tr with
  | [] => []
  | Communicate f input _ :: tr' => (f, input) :: encoder_inputs tr'
  | _ :: tr' => encoder_inputs tr'
  end.

(** ** The icon generator

    A shallow embedding of [scripts/generate-icons.py].  The machine the
    script runs on is a [world]: whether [cairosvg] can be imported when the
    script starts, whether [pip install cairosvg] succeeds (it raises
    [CalledProcessError] otherwise), whether [cairosvg] can be imported after
    a successful install, whether [public/icon.svg] exists, and what
    [cairosvg.svg2png] does for a size and an output file: [None] when it
    returns, [Some text] when it raises an exception that prints as
    [text]. *)
Module Icons.

Inductive exn : Set :=
| ImportError.

Inductive outcome (A : Type) : Type :=
| Returns (a : A)
| Raises (e : exn).

Arguments Returns {A} a.
Arguments Raises {A} e.

Record world : Type := {
  cairosvg_installed : bool;
  pip_installs : bool;
  importable_after_pip : bool;
  svg_exists : bool;
  svg2png : Z -> Z -> string -> option string
}.

(** The exception caught in [convert_svg_to_png]. *)
Inductive failure : Set :=
| NoModule                        (* ImportError of [import cairosvg] *)
| ConversionError (text : string). (* raised by [cairosvg.svg2png] *)

Inductive message : Set :=
| MsgGenerating                   (* Generating PWA icons... *)
| MsgInstalling                   (* Installing cairosvg... *)
| MsgInstalled                    (* cairosvg installed successfully *)
| MsgInstallFailed                (* Error: Failed to install cairosvg *)
| MsgGenerated (name : string) (width height : Z)
                                  (* Generated {name} ({width}x{height}) *)
| MsgConvertError (name : string) (e : failure)
                                  (* Error converting {name}: {e} *)
| MsgAlternative (line : nat)     (* the four lines on manual conversion *)
| MsgSvgNotFound                  (* Error: {svg_path} not found *)
| MsgAllGenerated                 (* All icons generated successfully! *)
| MsgFilesSaved.                  (* Files saved to: {output_dir} *)

Inductive event : Set :=
| Print (m : message)
| PipInstall
| Svg2png (output : string) (width height : Z).

(** [install_cairosvg()], given whether [cairosvg] can be imported now:
    the events, the returned value, and whether [cairosvg] can be imported
    afterwards. *)
Definition install_cairosvg (env : world) (importable : bool)
  : list event * bool * bool :=
  if importable then ([], true, importable)
  else if pip_installs env then
    ([Print MsgInstalling; PipInstall; Print MsgInstalled],
     true, importable_after_pip env)
  else
    ([Print MsgInstalling; PipInstall; Print MsgInstallFailed],
     false, importable).

(** [convert_svg_to_png(svg_path, output_path, width, height)], the paths
    being given by their names. *)
Definition convert_svg_to_png (env : world) (importable : bool)
  (svg_name output_name : string) (width height : Z) : list event * bool :=
  if importable then
    match svg2png env width height output_name with
    | None =>
        ([Svg2png output_name width height;
          Print (MsgGenerated output_name width height)], true)
    | Some text =>
        ([Svg2png output_name width height;
          Print (MsgConvertError svg_name (ConversionError text))], false)
    end
  else ([Print (MsgConvertError svg_name NoModule)], false).

Definition sizes : list (Z * Z * string) :=
  [(192, 192, "icon-192.png"); (512, 512, "icon-512.png")]%Z%string.

(** [main()] *)
Definition main (env : world) : list event * outcome unit :=
  let start := [Print MsgGenerating] in
  let '(installing, ok, importable) :=
    install_cairosvg env (cairosvg_installed env) in
  if negb ok then
    (start ++ installing
       ++ [Print (MsgAlternative 0); Print (MsgAlternative 1);
           Print (MsgAlternative 2); Print (MsgAlternative 3)],
     Returns tt)
  else if negb importable then
    (* [import cairosvg] of [main] raises *)
    (start ++ installing, Raises ImportError)
  else if negb (svg_exists env) then
    (start ++ installing ++ [Print MsgSvgNotFound], Returns tt)
  else
    let converting :=
      flat_map
        (fun size =>
           let '(width, height, filename) := size in
           fst (convert_svg_to_png env importable "icon.svg" filename
                  width height))
        sizes in
    (start ++ installing ++ converting
       ++ [Print MsgAllGenerated; Print MsgFilesSaved],
     Returns tt).

(** The calls of [cairosvg.svg2png] in a trace. *)
Fixpoint conversions (tr : list event) : list (string * Z * Z) :=
  match tr with
  | [] => []
  | Svg2png output width height :: tr' =>
      (output, width, height) :: conversions tr'
  | _ :: tr' => conversions tr'
  end.

(** Whether [cairosvg] can be imported once [install_cairosvg] is done. *)
Definition ready (env : world) : bool :=
  cairosvg_installed env || (pip_installs env && importable_after_pip env).

End Icons.

(** * Properties *)

(** ** Truncation *)

Lemma py_int_IZR (z : Z) : py_int (IZR z) = z.
Proof.
  unfold py_int. destruct (Rle_dec 0 (IZR z)) as [_ | _].
  - symmetry. apply Int_part_spec. lra.
  - rewrite <- opp_IZR.
    replace (Int_part (IZR (- z))) with (- z)%Z; [lia |].
    apply Int_part_spec. lra.
Qed.

Lemma py_int_floor (x : R) :
  0 <= x -> IZR (py_int x) <= x < IZR (py_int x) + 1.
Proof.
  intros Hx. unfold py_int. destruct (Rle_dec 0 x) as [_ | Hn]; [| lra].
  destruct (base_Int_part x). lra.
Qed.

Lemma py_int_nonneg (x : R) : 0 <= x -> (0 <= py_int x)%Z.
Proof.
  intros Hx. destruct (py_int_floor x Hx) as [_ Hlt].
  assert (H : 0 < IZR (py_int x + 1)) by (rewrite plus_IZR; lra).
  apply lt_IZR in H. lia.
Qed.

Lemma py_int_unique (x : R) (z : Z) :
  0 <= x -> IZR z <= x < IZR z + 1 -> py_int x = z.
Proof.
  intros Hx Hz. unfold py_int. destruct (Rle_dec 0 x) as [_ | Hn]; [| lra].
  symmetry. apply Int_part_spec. lra.
Qed.

(** [int(SAMPLE_RATE * c)] for a literal [c] whose product is the integer
    [z]. *)
Ltac samples_of z :=
  match goal with
  | |- context [py_int (SAMPLE_RATE * ?c)] =>
      replace (SAMPLE_RATE * c) with (IZR z) by (unfold SAMPLE_RATE; lra);
      rewrite (py_int_IZR z)
  end.

(** ** Arrays *)

Lemma zip_with_length (f : R -> R -> R) (xs ys : list R) :
  length xs = length ys -> length (zip_with f xs ys) = length xs.
Proof.
  revert ys. induction xs as [| x xs IH]; intros [| y ys] H; simpl in *;
    try discriminate; auto.
Qed.

Lemma zip_with_nth (f : R -> R -> R) (xs ys : list R) (i : nat) (d : R) :
  length xs = length ys -> (i < length xs)%nat ->
  nth i (zip_with f xs ys) d = f (nth i xs d) (nth i ys d).
Proof.
  revert ys i. induction xs as [| x xs IH]; intros [| y ys] i H Hi;
    simpl in *; try discriminate; try lia.
  destruct i as [| i]; [reflexivity |]. apply IH; lia.
Qed.

Lemma zip_with_ones (xs : list R) :
  zip_with Rmult xs (ones (length xs)) = xs.
Proof.
  induction xs as [| x xs IH]; simpl; [reflexivity |].
  unfold ones in IH. rewrite IH. f_equal. lra.
Qed.

Lemma zip_with_zeros (ys : list R) :
  zip_with Rplus (zeros (length ys)) ys = ys.
Proof.
  induction ys as [| y ys IH]; simpl; [reflexivity |].
  unfold zeros in IH. rewrite IH. f_equal. lra.
Qed.

Lemma linspace_samples_length (s e : R) (n : nat) (b : bool) :
  length (linspace_samples s e n b) = n.
Proof. unfold linspace_samples. now rewrite length_map, length_seq. Qed.

Lemma linspace_samples_nth (s e : R) (n : nat) (b : bool) (i : nat) (d : R) :
  (i < n)%nat ->
  nth i (linspace_samples s e n b) d =
  INR i * (if (0 <? (if b then n - 1 else n))%nat
           then (e - s) / INR (if b then n - 1 else n)
           else e - s) + s.
Proof.
  intros Hi. unfold linspace_samples.
  match goal with |- nth _ (map ?g _) _ = _ => set (f := g) end.
  rewrite (nth_indep _ d (f 0%nat)) by now rewrite length_map, length_seq.
  rewrite (map_nth f), seq_nth by assumption.
  reflexivity.
Qed.

Lemma linspace_nonneg (s e : R) (num : Z) (b : bool) :
  (0 <= num)%Z ->
  linspace s e num b = Ok (linspace_samples s e (Z.to_nat num) b).
Proof.
  intros H. unfold linspace.
  destruct (Z.ltb_spec num 0); [lia | reflexivity].
Qed.

(** ** Envelope *)

(** C9: [apply_envelope(w, 0, 0)] is the identity transform: it returns [w]
    itself, so the same length and the same sample at every index. *)
Theorem envelope_zero_identity (w : list R) :
  apply_envelope w 0 0 = Ok w.
Proof.
  unfold apply_envelope.
  samples_of 0%Z. simpl. now rewrite zip_with_ones.
Qed.

Lemma skipn_ones (n k : nat) : skipn k (ones n) = ones (n - k).
Proof.
  unfold ones. revert k. induction n as [| n IH]; intros [| k]; simpl; auto.
Qed.

Lemma ones_length (n : nat) : length (ones n) = n.
Proof. apply repeat_length. Qed.

Lemma ones_nth (n i : nat) : nth i (ones n) 1 = 1.
Proof. unfold ones. apply nth_repeat. Qed.

Lemma attack_ramp_length (a : nat) : length (attack_ramp a) = a.
Proof. apply linspace_samples_length. Qed.

Lemma release_ramp_length (r : nat) : length (release_ramp r) = r.
Proof. apply linspace_samples_length. Qed.

Lemma envelope_of_length (n a r : nat) :
  (a <= n)%nat -> (r <= n)%nat -> length (envelope_of n a r) = n.
Proof.
  intros Ha Hr. unfold envelope_of.
  rewrite length_app, length_firstn, length_app, attack_ramp_length,
    ones_length, release_ramp_length. lia.
Qed.

Lemma rbind_Ok {A B : Type} (a : A) (k : A -> result B) :
  rbind (Ok a) k = k a.
Proof. reflexivity. Qed.

(** The result of [apply_envelope] when neither window is longer than the
    waveform: no exception, and the waveform times [envelope_of]. *)
Lemma apply_envelope_ok (w : list R) (attack release : R) (a r : nat) :
  py_int (SAMPLE_RATE * attack) = Z.of_nat a ->
  py_int (SAMPLE_RATE * release) = Z.of_nat r ->
  (a <= length w)%nat -> (r <= length w)%nat ->
  apply_envelope w attack release =
  Ok (zip_with Rmult w (envelope_of (length w) a r)).
Proof.
  intros Ea Er Ha Hr. unfold apply_envelope. rewrite Ea, Er.
  set (n := length w) in *.
  assert (E1 : (if (Z.of_nat a >? 0)%Z
                then ramp <- linspace 0 1 (Z.of_nat a) true ;;
                     set_slice (ones n) 0 (Nat.min (Z.to_nat (Z.of_nat a)) n)
                       ramp
                else Ok (ones n))
               = Ok (attack_ramp a ++ ones (n - a))).
  { destruct (Z.gtb_spec (Z.of_nat a) 0) as [Hpos | Hzero].
    - rewrite linspace_nonneg by lia. rewrite Nat2Z.id.
      cbv beta iota delta [rbind]. unfold set_slice.
      fold (attack_ramp a). rewrite attack_ramp_length.
      replace (Nat.min a n) with a by lia.
      rewrite Nat.sub_0_r, Nat.eqb_refl.
      now rewrite skipn_ones.
    - assert (a = 0%nat) by lia. subst a.
      now rewrite Nat.sub_0_r. }
  rewrite E1, rbind_Ok.
  set (env1 := attack_ramp a ++ ones (n - a)).
  assert (L1 : length env1 = n).
  { unfold env1. rewrite length_app, attack_ramp_length, ones_length. lia. }
  assert (E2 : (if (Z.of_nat r >? 0)%Z
                then ramp <- linspace 1 0 (Z.of_nat r) true ;;
                     set_slice env1
                       (n - Nat.min (Z.to_nat (Z.of_nat r)) n) n ramp
                else Ok env1)
               = Ok (envelope_of n a r)).
  { unfold envelope_of. fold env1.
    destruct (Z.gtb_spec (Z.of_nat r) 0) as [Hpos | Hzero].
    - rewrite linspace_nonneg by lia. rewrite Nat2Z.id.
      cbv beta iota delta [rbind]. unfold set_slice.
      fold (release_ramp r). rewrite release_ramp_length.
      replace (Nat.min r n) with r by lia.
      replace (n - (n - r))%nat with r by lia.
      rewrite Nat.eqb_refl.
      rewrite (skipn_all2 env1) by lia. now rewrite app_nil_r.
    - assert (r = 0%nat) by lia. subst r.
      rewrite Nat.sub_0_r, firstn_all2 by lia.
      unfold release_ramp, linspace_samples. simpl. now rewrite app_nil_r. }
  rewrite E2. reflexivity.
Qed.

Lemma envelope_of_nth_release (n a r i : nat) (d : R) :
  (a <= n)%nat -> (r <= n)%nat -> (n - r <= i)%nat ->
  nth i (envelope_of n a r) d = nth (i - (n - r)) (release_ramp r) d.
Proof.
  intros Ha Hr Hi. unfold envelope_of.
  assert (L : length (firstn (n - r) (attack_ramp a ++ ones (n - a)))
              = (n - r)%nat).
  { rewrite length_firstn, length_app, attack_ramp_length, ones_length. lia. }
  rewrite app_nth2 by lia. now rewrite L.
Qed.

Lemma envelope_of_nth_attack (n a r i : nat) (d : R) :
  (a <= n)%nat -> (r <= n)%nat -> (i < n - r)%nat -> (i < a)%nat ->
  nth i (envelope_of n a r) d = nth i (attack_ramp a) d.
Proof.
  intros Ha Hr Hi Hia. unfold envelope_of.
  rewrite app_nth1
    by (rewrite length_firstn, length_app, attack_ramp_length, ones_length;
        lia).
  rewrite nth_firstn.
  replace (i <? n - r)%nat with true by (symmetry; apply Nat.ltb_lt; lia).
  apply app_nth1. now rewrite attack_ramp_length.
Qed.

Lemma envelope_of_nth_middle (n a r i : nat) :
  (a <= n)%nat -> (r <= n)%nat -> (a <= i < n - r)%nat ->
  nth i (envelope_of n a r) 1 = 1.
Proof.
  intros Ha Hr Hi. unfold envelope_of.
  rewrite app_nth1
    by (rewrite length_firstn, length_app, attack_ramp_length, ones_length;
        lia).
  rewrite nth_firstn.
  replace (i <? n - r)%nat with true by (symmetry; apply Nat.ltb_lt; lia).
  rewrite app_nth2 by (rewrite attack_ramp_length; lia).
  apply ones_nth.
Qed.

Lemma unit_fraction_bounds (i m : nat) :
  (0 < m)%nat -> (i <= m)%nat -> 0 <= INR i / INR m <= 1.
Proof.
  intros Hm Hi.
  assert (Hx : 0 < INR m) by (apply lt_0_INR; lia).
  assert (Hy : 0 <= INR i) by apply pos_INR.
  assert (Hyx : INR i <= INR m) by (apply le_INR; lia).
  assert (Hinv : 0 < / INR m) by now apply Rinv_0_lt_compat.
  assert (Hone : INR m * / INR m = 1) by (apply Rinv_r; lra).
  unfold Rdiv. split; nra.
Qed.

Lemma attack_ramp_bounds (a i : nat) (d : R) :
  (i < a)%nat -> 0 <= nth i (attack_ramp a) d <= 1.
Proof.
  intros Hi. unfold attack_ramp. rewrite linspace_samples_nth by assumption.
  destruct (Nat.ltb_spec 0 (a - 1)) as [Hpos | Hzero].
  - replace (INR i * ((1 - 0) / INR (a - 1)) + 0) with (INR i / INR (a - 1))
      by (field; apply not_0_INR; lia).
    apply unit_fraction_bounds; lia.
  - assert (i = 0%nat) by lia. subst i. simpl. lra.
Qed.

Lemma release_ramp_bounds (r j : nat) (d : R) :
  (j < r)%nat -> 0 <= nth j (release_ramp r) d <= 1.
Proof.
  intros Hj. unfold release_ramp. rewrite linspace_samples_nth by assumption.
  destruct (Nat.ltb_spec 0 (r - 1)) as [Hpos | Hzero].
  - replace (INR j * ((0 - 1) / INR (r - 1)) + 1)
      with (1 - INR j / INR (r - 1))
      by (field; apply not_0_INR; lia).
    assert (0 <= INR j / INR (r - 1) <= 1)
      by (apply unit_fraction_bounds; lia).
    lra.
  - assert (j = 0%nat) by lia. subst j. simpl. lra.
Qed.

Lemma envelope_of_bounds (n a r i : nat) :
  (a <= n)%nat -> (r <= n)%nat -> (i < n)%nat ->
  0 <= nth i (envelope_of n a r) 1 <= 1.
Proof.
  intros Ha Hr Hi.
  destruct (Nat.le_gt_cases (n - r) i) as [Hrel | Hbefore].
  - rewrite envelope_of_nth_release by assumption.
    apply release_ramp_bounds. lia.
  - destruct (Nat.le_gt_cases a i) as [Hmid | Hatt].
    + rewrite envelope_of_nth_middle by lia. lra.
    + rewrite envelope_of_nth_attack by assumption.
      now apply attack_ramp_bounds.
Qed.

Lemma last_as_nth (l : list R) (d : R) :
  last l d = nth (length l - 1) l d.
Proof.
  induction l as [| x l IH]; [reflexivity |].
  destruct l as [| y l]; [reflexivity |].
  change (last (x :: y :: l) d) with (last (y :: l) d). rewrite IH.
  simpl. now rewrite Nat.sub_0_r.
Qed.

(** Every sample of an enveloped waveform is the original sample times the
    envelope value at its index. *)
Lemma enveloped_nth (w : list R) (n a r i : nat) :
  n = length w -> (a <= n)%nat -> (r <= n)%nat -> (i < n)%nat ->
  nth i (zip_with Rmult w (envelope_of n a r)) 0 =
  nth i w 0 * nth i (envelope_of n a r) 1.
Proof.
  intros -> Ha Hr Hi.
  rewrite zip_with_nth by (rewrite ?envelope_of_length; auto).
  f_equal. apply nth_indep. now rewrite envelope_of_length.
Qed.

Lemma enveloped_amplitude (w : list R) (n a r i : nat) :
  n = length w -> (a <= n)%nat -> (r <= n)%nat ->
  Rabs (nth i (zip_with Rmult w (envelope_of n a r)) 0) <= Rabs (nth i w 0).
Proof.
  intros Hn Ha Hr. destruct (Nat.lt_ge_cases i n) as [Hi | Hi].
  - rewrite enveloped_nth by assumption.
    pose proof (envelope_of_bounds n a r i Ha Hr Hi) as [H0 H1].
    rewrite Rabs_mult, (Rabs_right (nth i (envelope_of n a r) 1)) by lra.
    pose proof (Rabs_pos (nth i w 0)). nra.
  - assert (L : length (zip_with Rmult w (envelope_of n a r)) = n)
      by (rewrite zip_with_length; rewrite ?envelope_of_length; auto).
    rewrite !nth_overflow by lia. lra.
Qed.

(** C8: when the attack and release windows fit side by side in the
    waveform, [apply_envelope] returns a waveform of the same length whose
    samples between the two windows are those of the original, and whose
    first and last samples are no larger in absolute value than the
    original's first and last samples. *)
Theorem envelope_frame (w : list R) (attack release : R) :
  0 <= attack -> 0 <= release ->
  (py_int (SAMPLE_RATE * attack) + py_int (SAMPLE_RATE * release)
   <= Z.of_nat (length w))%Z ->
  exists w',
    apply_envelope w attack release = Ok w' /\
    length w' = length w /\
    (forall i : nat,
        (py_int (SAMPLE_RATE * attack) <= Z.of_nat i
         < Z.of_nat (length w) - py_int (SAMPLE_RATE * release))%Z ->
        nth i w' 0 = nth i w 0) /\
    Rabs (nth 0 w' 0) <= Rabs (nth 0 w 0) /\
    Rabs (last w' 0) <= Rabs (last w 0).
Proof.
  intros Hatt Hrel Hfit.
  assert (Sa : 0 <= SAMPLE_RATE * attack) by (unfold SAMPLE_RATE; lra).
  assert (Sr : 0 <= SAMPLE_RATE * release) by (unfold SAMPLE_RATE; lra).
  pose proof (py_int_nonneg _ Sa) as Ha0.
  pose proof (py_int_nonneg _ Sr) as Hr0.
  set (a := Z.to_nat (py_int (SAMPLE_RATE * attack))).
  set (r := Z.to_nat (py_int (SAMPLE_RATE * release))).
  assert (Ea : py_int (SAMPLE_RATE * attack) = Z.of_nat a)
    by (unfold a; lia).
  assert (Er : py_int (SAMPLE_RATE * release) = Z.of_nat r)
    by (unfold r; lia).
  rewrite Ea, Er in Hfit.
  assert (Ha : (a <= length w)%nat) by lia.
  assert (Hr : (r <= length w)%nat) by lia.
  exists (zip_with Rmult w (envelope_of (length w) a r)).
  split; [now apply apply_envelope_ok |].
  assert (L : length (zip_with Rmult w (envelope_of (length w) a r))
              = length w)
    by (apply zip_with_length; now rewrite envelope_of_length).
  split; [exact L |].
  split; [| split].
  - intros i Hi. rewrite Ea, Er in Hi.
    rewrite enveloped_nth by (auto; lia).
    rewrite envelope_of_nth_middle by lia. lra.
  - now apply enveloped_amplitude.
  - rewrite !last_as_nth, L. now apply enveloped_amplitude.
Qed.

(** A waveform of 1000 samples with windows of 375 samples each. *)
Lemma envelope_frame_witness :
  exists w',
    apply_envelope (ones 1000) (1 / 128) (1 / 128) = Ok w' /\
    length w' = length (ones 1000) /\
    (forall i : nat,
        (py_int (SAMPLE_RATE * (1 / 128)) <= Z.of_nat i
         < Z.of_nat (length (ones 1000))
           - py_int (SAMPLE_RATE * (1 / 128)))%Z ->
        nth i w' 0 = nth i (ones 1000) 0) /\
    Rabs (nth 0 w' 0) <= Rabs (nth 0 (ones 1000) 0) /\
    Rabs (last w' 0) <= Rabs (last (ones 1000) 0).
Proof.
  apply (envelope_frame (ones 1000) (1 / 128) (1 / 128)).
  - lra.
  - lra.
  - rewrite ones_length. samples_of 375%Z. lia.
Defined.

(** C3, as amended: when the two windows overlap (each at most the length of
    the waveform), [apply_envelope] builds one envelope in which the release
    ramp, assigned last, replaces the attack ramp on the overlap; at every
    overlapping index the resulting sample is the original sample times the
    release ramp factor alone. *)
Theorem envelope_overlap_release_only
  (w : list R) (attack release : R) (a r : nat) :
  py_int (SAMPLE_RATE * attack) = Z.of_nat a ->
  py_int (SAMPLE_RATE * release) = Z.of_nat r ->
  (a <= length w)%nat -> (r <= length w)%nat -> (length w < a + r)%nat ->
  exists w',
    apply_envelope w attack release = Ok w' /\
    length w' = length w /\
    forall i : nat,
      (length w - r <= i < a)%nat ->
      nth i w' 0 = nth i w 0 * nth (i - (length w - r)) (release_ramp r) 1.
Proof.
  intros Ea Er Ha Hr Hover.
  exists (zip_with Rmult w (envelope_of (length w) a r)).
  split; [now apply apply_envelope_ok |].
  split; [apply zip_with_length; now rewrite envelope_of_length |].
  intros i Hi.
  rewrite enveloped_nth by (auto; lia).
  now rewrite envelope_of_nth_release by lia.
Qed.

(** Four samples with windows of three samples each, at the overlapping
    index 1. *)
Lemma envelope_overlap_release_only_witness :
  exists w',
    apply_envelope [1; 1; 1; 1] (3 / 48000) (3 / 48000) = Ok w' /\
    length w' = 4%nat /\
    forall i : nat,
      (4 - 3 <= i < 3)%nat ->
      nth i w' 0 = nth i [1; 1; 1; 1] 0 * nth (i - (4 - 3)) (release_ramp 3) 1.
Proof.
  apply (envelope_overlap_release_only [1; 1; 1; 1] (3 / 48000) (3 / 48000)
           3 3).
  - now samples_of 3%Z.
  - now samples_of 3%Z.
  - simpl; lia.
  - simpl; lia.
  - simpl; lia.
Defined.

(** C3, refuted as stated: on four unit samples with attack and release
    windows of three samples each, index 1 lies in both windows; the code
    returns the sample times the release factor [1], that is [1], where the
    composition of both ramps gives [1/2]. *)
Lemma envelope_overlap_not_composed :
  exists w',
    apply_envelope [1; 1; 1; 1] (3 / 48000) (3 / 48000) = Ok w' /\
    nth 1 w' 0 = 1 /\
    nth 1 (spec_sequential_envelope [1; 1; 1; 1] 3 3) 0 = 1 / 2 /\
    nth 1 w' 0 <> nth 1 (spec_sequential_envelope [1; 1; 1; 1] 3 3) 0.
Proof.
  eexists. split.
  - apply (apply_envelope_ok _ _ _ 3 3); try (simpl; lia);
      now samples_of 3%Z.
  - assert (E1 : nth 1 (zip_with Rmult [1; 1; 1; 1]
                          (envelope_of (length [1; 1; 1; 1]) 3 3)) 0 = 1)
      by (cbn; lra).
    assert (E2 : nth 1 (spec_sequential_envelope [1; 1; 1; 1] 3 3) 0 = 1 / 2)
      by (cbn; lra).
    rewrite E1, E2. repeat split; lra.
Qed.

(** ** Generators *)

Lemma samples_nonneg (duration : R) :
  0 <= duration -> (0 <= py_int (SAMPLE_RATE * duration))%Z.
Proof.
  intros H. apply py_int_nonneg. unfold SAMPLE_RATE. lra.
Qed.

Lemma map_nth_in (g : R -> R) (l : list R) (i : nat) :
  (i < length l)%nat -> nth i (map g l) 0 = g (nth i l 0).
Proof.
  intros Hi. rewrite (nth_indep _ 0 (g 0)) by now rewrite length_map.
  apply map_nth.
Qed.

(** C7: a chord of the single frequency [f] is the tone of frequency [f]:
    [generate_multi_tone([f], d, v)] and [generate_tone(f, d, v)] give the
    same outcome, hence the same length and the same sample at every
    index. *)
Theorem multi_tone_single (f duration volume : R) :
  generate_multi_tone [f] duration volume = generate_tone f duration volume.
Proof.
  unfold generate_multi_tone, generate_tone, linspace.
  destruct (py_int (SAMPLE_RATE * duration) <? 0)%Z; [reflexivity |].
  rewrite !rbind_Ok. f_equal.
  set (t := linspace_samples 0 duration _ false).
  cbn [fold_left length].
  replace (Z.to_nat (py_int (SAMPLE_RATE * duration)))
    with (length (map (fun ti => volume / INR 1 * sin (2 * PI * f * ti)) t))
    by (rewrite length_map; apply linspace_samples_length).
  rewrite zip_with_zeros. apply map_ext. intros ti. simpl. field.
Qed.

Lemma generate_tone_ok (f duration volume : R) :
  0 <= duration ->
  generate_tone f duration volume =
  Ok (map (fun ti => volume * sin (2 * PI * f * ti))
        (linspace_samples 0 duration
           (Z.to_nat (py_int (SAMPLE_RATE * duration))) false)).
Proof.
  intros Hd. unfold generate_tone.
  now rewrite linspace_nonneg, rbind_Ok by now apply samples_nonneg.
Qed.

(** C5, as amended: for a positive duration, [generate_tone] returns a
    waveform whose length is [int(SAMPLE_RATE * duration)], the product
    truncated (rounded down), and in which every sample is at most the
    volume in absolute value. *)
Theorem tone_length_amplitude (f duration volume : R) :
  0 < duration ->
  exists w,
    generate_tone f duration volume = Ok w /\
    Z.of_nat (length w) = py_int (SAMPLE_RATE * duration) /\
    IZR (Z.of_nat (length w)) <= SAMPLE_RATE * duration
      < IZR (Z.of_nat (length w)) + 1 /\
    forall i : nat, Rabs (nth i w 0) <= Rabs volume.
Proof.
  intros Hd. eexists. split; [apply generate_tone_ok; lra |].
  assert (Hs : 0 <= SAMPLE_RATE * duration) by (unfold SAMPLE_RATE; lra).
  pose proof (py_int_nonneg _ Hs) as Hn.
  assert (L : Z.of_nat
                (length
                   (map (fun ti => volume * sin (2 * PI * f * ti))
                      (linspace_samples 0 duration
                         (Z.to_nat (py_int (SAMPLE_RATE * duration))) false)))
              = py_int (SAMPLE_RATE * duration))
    by (rewrite length_map, linspace_samples_length; lia).
  split; [exact L |]. split; [rewrite L; now apply py_int_floor |].
  intros i.
  set (t := linspace_samples 0 duration _ false).
  destruct (Nat.lt_ge_cases i (length t)) as [Hi | Hi].
  - rewrite map_nth_in by assumption. rewrite Rabs_mult.
    pose proof (SIN_bound (2 * PI * f * nth i t 0)) as Hsin.
    assert (Rabs (sin (2 * PI * f * nth i t 0)) <= 1)
      by (apply Rabs_le; lra).
    pose proof (Rabs_pos volume). nra.
  - rewrite nth_overflow by now rewrite length_map.
    rewrite Rabs_R0. apply Rabs_pos.
Qed.

(** A tone of 440 Hz lasting 1/512 s at volume 1/4. *)
Lemma tone_length_amplitude_witness :
  exists w,
    generate_tone 440 (1 / 512) (1 / 4) = Ok w /\
    Z.of_nat (length w) = py_int (SAMPLE_RATE * (1 / 512)) /\
    IZR (Z.of_nat (length w)) <= SAMPLE_RATE * (1 / 512)
      < IZR (Z.of_nat (length w)) + 1 /\
    forall i : nat, Rabs (nth i w 0) <= Rabs (1 / 4).
Proof.
  apply (tone_length_amplitude 440 (1 / 512) (1 / 4)). lra.
Defined.

Lemma samples_of_512th : py_int (SAMPLE_RATE * (1 / 512)) = 93%Z.
Proof.
  apply py_int_unique; unfold SAMPLE_RATE; lra.
Qed.

(** C5, refuted as stated: a tone lasting 1/512 s has
    [int(48000 / 512) = int(93.75) = 93] samples, and 93 is not a rounding of
    93.75 to a nearest integer. *)
Lemma tone_length_not_rounded :
  exists w,
    generate_tone 440 (1 / 512) (1 / 4) = Ok w /\
    length w = 93%nat /\
    ~ nearest_integer (SAMPLE_RATE * (1 / 512)) (Z.of_nat (length w)).
Proof.
  eexists. split; [apply generate_tone_ok; lra |].
  rewrite length_map, linspace_samples_length, samples_of_512th.
  split; [reflexivity |].
  unfold nearest_integer, SAMPLE_RATE.
  change (Z.of_nat (Z.to_nat 93)) with 93%Z.
  intros H.
  assert (E : Rabs (93 - 48000 * (1 / 512)) = 3 / 4).
  { rewrite Rabs_left by lra. lra. }
  rewrite E in H. lra.
Qed.

Lemma linspace_samples_constant (f : R) (n : nat) :
  linspace_samples f f n true = repeat f n.
Proof.
  unfold linspace_samples.
  rewrite <- (length_seq n 0) at 2. rewrite <- map_const.
  apply map_ext. intros i.
  destruct (0 <? n - 1)%nat; unfold Rdiv; rewrite Rminus_diag; lra.
Qed.

Lemma cumsum_from_constant (f acc : R) (n i : nat) :
  (i < n)%nat ->
  nth i (cumsum_from acc (repeat f n)) 0 = acc + INR (S i) * f.
Proof.
  revert acc i. induction n as [| n IH]; intros acc i Hi; [lia |].
  destruct i as [| i].
  - simpl. lra.
  - cbn [repeat cumsum_from nth]. rewrite IH by lia.
    rewrite (S_INR (S i)). lra.
Qed.

Lemma cumsum_from_length (acc : R) (xs : list R) :
  length (cumsum_from acc xs) = length xs.
Proof.
  revert acc. induction xs as [| x xs IH]; intros acc; simpl; auto.
Qed.

Lemma generate_sweep_ok (f0 f1 duration volume : R) :
  0 <= duration ->
  generate_sweep f0 f1 duration volume =
  Ok (map (fun p => volume * sin p)
        (map (fun c => 2 * PI * c / SAMPLE_RATE)
           (cumsum
              (linspace_samples f0 f1
                 (Z.to_nat (py_int (SAMPLE_RATE * duration))) true)))).
Proof.
  intros Hd. unfold generate_sweep.
  now rewrite !linspace_nonneg, !rbind_Ok by now apply samples_nonneg.
Qed.

(** Sample [i] of a sweep between equal frequencies. *)
Lemma degenerate_sweep_nth (f volume : R) (n i : nat) :
  (i < n)%nat ->
  nth i (map (fun p => volume * sin p)
           (map (fun c => 2 * PI * c / SAMPLE_RATE)
              (cumsum (linspace_samples f f n true)))) 0
  = volume * sin (2 * PI * (INR (S i) * f) / SAMPLE_RATE).
Proof.
  intros Hi. rewrite linspace_samples_constant.
  assert (L : length (cumsum (repeat f n)) = n)
    by (unfold cumsum; now rewrite cumsum_from_length, repeat_length).
  rewrite map_nth_in by now rewrite length_map, L.
  rewrite map_nth_in by now rewrite L.
  unfold cumsum. rewrite cumsum_from_constant by assumption.
  now rewrite Rplus_0_l.
Qed.

(** C4, as amended: for a positive duration, the sweep between equal
    frequencies [f] has the length of the tone of frequency [f], and its
    sample [i] is [volume * sin(2 pi (i + 1) f / SAMPLE_RATE)]: the phase is
    the running sum that already includes the current sample, so the sweep
    runs one sample period ahead of the tone; when [SAMPLE_RATE * duration]
    is a whole number, sample [i] of the sweep is sample [i + 1] of the
    tone. *)
Theorem sweep_degenerate (f duration volume : R) :
  0 < duration ->
  exists ws wt,
    generate_sweep f f duration volume = Ok ws /\
    generate_tone f duration volume = Ok wt /\
    length ws = length wt /\
    (forall i : nat,
        (i < length ws)%nat ->
        nth i ws 0 = volume * sin (2 * PI * (INR (S i) * f) / SAMPLE_RATE)) /\
    (forall n : Z,
        SAMPLE_RATE * duration = IZR n ->
        forall i : nat,
          (S i < length wt)%nat -> nth i ws 0 = nth (S i) wt 0).
Proof.
  intros Hd. do 2 eexists.
  split; [apply generate_sweep_ok; lra |].
  split; [apply generate_tone_ok; lra |].
  set (n := Z.to_nat (py_int (SAMPLE_RATE * duration))).
  assert (Ls : length
                 (map (fun p => volume * sin p)
                    (map (fun c => 2 * PI * c / SAMPLE_RATE)
                       (cumsum (linspace_samples f f n true)))) = n).
  { rewrite !length_map. unfold cumsum.
    now rewrite cumsum_from_length, linspace_samples_length. }
  assert (Lt : length
                 (map (fun ti => volume * sin (2 * PI * f * ti))
                    (linspace_samples 0 duration n false)) = n)
    by now rewrite length_map, linspace_samples_length.
  split; [now rewrite Ls, Lt |]. split.
  - intros i Hi. rewrite Ls in Hi. now apply degenerate_sweep_nth.
  - intros z Hz i Hi. rewrite Lt in Hi.
    rewrite degenerate_sweep_nth by lia.
    rewrite map_nth_in by now rewrite linspace_samples_length.
    rewrite linspace_samples_nth by assumption.
    assert (Hn : INR n = SAMPLE_RATE * duration).
    { unfold n. rewrite Hz, py_int_IZR, INR_IZR_INZ.
      f_equal. apply Z2Nat.id. apply le_IZR. rewrite <- Hz.
      unfold SAMPLE_RATE. lra. }
    replace (0 <? n)%nat with true by (symmetry; apply Nat.ltb_lt; lia).
    f_equal. f_equal. rewrite Hn. unfold SAMPLE_RATE. field. lra.
Qed.

(** A sweep from 12000 Hz to 12000 Hz lasting 1/128 s at volume 1. *)
Lemma sweep_degenerate_witness :
  exists ws wt,
    generate_sweep 12000 12000 (1 / 128) 1 = Ok ws /\
    generate_tone 12000 (1 / 128) 1 = Ok wt /\
    length ws = length wt /\
    (forall i : nat,
        (i < length ws)%nat ->
        nth i ws 0 = 1 * sin (2 * PI * (INR (S i) * 12000) / SAMPLE_RATE)) /\
    (forall n : Z,
        SAMPLE_RATE * (1 / 128) = IZR n ->
        forall i : nat,
          (S i < length wt)%nat -> nth i ws 0 = nth (S i) wt 0).
Proof.
  apply (sweep_degenerate 12000 (1 / 128) 1). lra.
Defined.

(** C4, refuted as stated: at 12000 Hz over 1/128 s (375 samples) with
    volume 1, the first sample of the degenerate sweep is
    [sin(2 pi 12000 / 48000) = sin(pi / 2) = 1], while the first sample of
    the tone is [sin 0 = 0]. *)
Lemma sweep_degenerate_not_tone :
  exists ws wt,
    generate_sweep 12000 12000 (1 / 128) 1 = Ok ws /\
    generate_tone 12000 (1 / 128) 1 = Ok wt /\
    nth 0 ws 0 = 1 /\
    nth 0 wt 0 = 0 /\
    ws <> wt.
Proof.
  do 2 eexists.
  split; [apply generate_sweep_ok; lra |].
  split; [apply generate_tone_ok; lra |].
  samples_of 375%Z.
  assert (Es : nth 0
                 (map (fun p => 1 * sin p)
                    (map (fun c => 2 * PI * c / SAMPLE_RATE)
                       (cumsum
                          (linspace_samples 12000 12000 (Z.to_nat 375) true))))
                 0 = 1).
  { rewrite degenerate_sweep_nth by lia.
    replace (2 * PI * (INR 1 * 12000) / SAMPLE_RATE) with (PI / 2)
      by (unfold SAMPLE_RATE; simpl; field).
    rewrite sin_PI2. lra. }
  assert (Et : nth 0
                 (map (fun ti => 1 * sin (2 * PI * 12000 * ti))
                    (linspace_samples 0 (1 / 128) (Z.to_nat 375) false))
                 0 = 0).
  { rewrite map_nth_in by (rewrite linspace_samples_length; lia).
    rewrite linspace_samples_nth by lia.
    replace (2 * PI * 12000 * (INR 0 * _ + 0)) with 0 by (simpl; ring).
    rewrite sin_0. lra. }
  split; [exact Es |]. split; [exact Et |].
  intros Heq. rewrite Heq in Es. rewrite Es in Et. lra.
Qed.

(** ** Exporter *)

Lemma py_int_range (x : R) (m : Z) :
  - IZR m <= x <= IZR m -> (- m <= py_int x <= m)%Z.
Proof.
  intros [Hlo Hhi]. unfold py_int.
  destruct (Rle_dec 0 x) as [Hx | Hx].
  - destruct (base_Int_part x) as [H1 H2].
    split.
    + assert (H : IZR (- m - 1) < IZR (Int_part x))
        by (rewrite minus_IZR, opp_IZR; lra).
      apply lt_IZR in H. lia.
    + apply le_IZR. lra.
  - destruct (base_Int_part (- x)) as [H1 H2].
    split.
    + assert (H : IZR (Int_part (- x)) <= IZR m) by lra.
      apply le_IZR in H. lia.
    + assert (H : IZR (- 1) < IZR (Int_part (- x))) by lra.
      apply lt_IZR in H.
      assert (H' : IZR (- m - 1) < IZR (Int_part (- x)))
        by (rewrite minus_IZR, opp_IZR; lra).
      apply lt_IZR in H'. lia.
Qed.

Lemma wrap16_in_range (z : Z) :
  (-32768 <= z <= 32767)%Z -> wrap16 z = z.
Proof.
  intros H. unfold wrap16. rewrite Z.mod_small by lia. lia.
Qed.

Lemma normalize_nth (wave : list R) (i : nat) :
  (i < length wave)%nat ->
  nth i (normalize wave) 0%Z = to_int16 (nth i wave 0 * 32767).
Proof.
  intros Hi. unfold normalize.
  rewrite (nth_indep _ 0%Z (to_int16 (0 * 32767)))
    by now rewrite length_map.
  apply (map_nth (fun x => to_int16 (x * 32767))).
Qed.

(** C1, as amended: [save_as_opus] scales each sample by 32767 and converts
    it to a signed 16-bit integer by truncation toward zero, with no clipping
    step; a sample [x] with [-1 <= x <= 1] is emitted as the truncation of
    [x * 32767], which lies in [-32767 .. 32767]. *)
Theorem normalize_unit_range (wave : list R) (i : nat) :
  (i < length wave)%nat ->
  -1 <= nth i wave 0 <= 1 ->
  length (normalize wave) = length wave /\
  nth i (normalize wave) 0%Z = py_int (nth i wave 0 * 32767) /\
  (-32767 <= nth i (normalize wave) 0%Z <= 32767)%Z.
Proof.
  intros Hi Hx.
  pose proof (py_int_range (nth i wave 0 * 32767) 32767 ltac:(lra)) as Hr.
  split; [apply length_map |].
  rewrite normalize_nth by assumption. unfold to_int16.
  rewrite wrap16_in_range by lia. split; [reflexivity | lia].
Qed.

(** The samples [1/2; -1/4], at index 1. *)
Lemma normalize_unit_range_witness :
  length (normalize [1 / 2; - (1 / 4)]) = length [1 / 2; - (1 / 4)] /\
  nth 1 (normalize [1 / 2; - (1 / 4)]) 0%Z
  = py_int (nth 1 [1 / 2; - (1 / 4)] 0 * 32767) /\
  (-32767 <= nth 1 (normalize [1 / 2; - (1 / 4)]%R) 0%Z <= 32767)%Z.
Proof.
  apply (normalize_unit_range [1 / 2; - (1 / 4)] 1).
  - simpl; lia.
  - simpl; lra.
Defined.

(** C1, refuted as stated: the sample [2] scales to [65534], outside the
    16-bit range; the emitted value is the wrapped [-2], where clipping gives
    the range bound [32767]. *)
Lemma normalize_wraps_out_of_range :
  normalize [2] = [(-2)%Z] /\
  spec_normalize_clipped [2] = [32767%Z] /\
  normalize [2] <> spec_normalize_clipped [2].
Proof.
  assert (E : py_int (2 * 32767) = 65534%Z).
  { replace (2 * 32767) with (IZR 65534) by lra. apply py_int_IZR. }
  assert (E1 : normalize [2] = [(-2)%Z]).
  { unfold normalize, to_int16. cbn [map]. rewrite E. reflexivity. }
  assert (E2 : spec_normalize_clipped [2] = [32767%Z]).
  { unfold spec_normalize_clipped. cbn [map]. rewrite E. reflexivity. }
  rewrite E1, E2. repeat split. discriminate.
Qed.

(** C10: [save_as_opus] returns [True] whenever the encoder was found,
    whatever its exit status (a nonzero status only changes the line that is
    printed), and [False] when it was not found: the result tells a missing
    encoder from a run of the encoder, not a failed run from a successful
    one. *)
Theorem save_as_opus_result (wave : list R) (filename : string) :
  (forall ffmpeg : string -> list Z -> Z,
      let rc := ffmpeg filename (tobytes (normalize wave)) in
      snd (save_as_opus (Some ffmpeg) wave filename) = Ok true /\
      printed (fst (save_as_opus (Some ffmpeg) wave filename))
      = [if (rc =? 0)%Z then MsgGenerated filename
         else MsgWarning rc filename]) /\
  snd (save_as_opus None wave filename) = Ok false /\
  (forall enc : encoder,
      snd (save_as_opus enc wave filename) = Ok false <-> enc = None).
Proof.
  assert (Hsome : forall ffmpeg : string -> list Z -> Z,
             let rc := ffmpeg filename (tobytes (normalize wave)) in
             snd (save_as_opus (Some ffmpeg) wave filename) = Ok true /\
             printed (fst (save_as_opus (Some ffmpeg) wave filename))
             = [if (rc =? 0)%Z then MsgGenerated filename
                else MsgWarning rc filename]).
  { intros ffmpeg rc. unfold save_as_opus. fold rc.
    destruct (rc =? 0)%Z; split; reflexivity. }
  split; [exact Hsome |]. split; [reflexivity |].
  intros [ffmpeg |]; split; intros H; try reflexivity; try discriminate.
  destruct (Hsome ffmpeg) as [E _]. rewrite E in H. discriminate.
Qed.

(** ** The run *)

Lemma generate_tone_samples (f duration volume : R) (z : Z) :
  SAMPLE_RATE * duration = IZR z -> (0 <= z)%Z ->
  exists w,
    generate_tone f duration volume = Ok w /\ length w = Z.to_nat z.
Proof.
  intros Hz Hpos. unfold generate_tone.
  rewrite Hz, py_int_IZR, linspace_nonneg, rbind_Ok by assumption.
  eexists. split; [reflexivity |].
  now rewrite length_map, linspace_samples_length.
Qed.

Lemma chord_length (g : R -> R -> R) (t : list R) (fs : list R) :
  forall wave : list R,
    length wave = length t ->
    length (fold_left
              (fun wave freq => zip_with Rplus wave (map (g freq) t))
              fs wave) = length t.
Proof.
  induction fs as [| f fs IH]; intros wave Hw; [exact Hw |].
  cbn [fold_left]. apply IH.
  rewrite zip_with_length; rewrite ?length_map; assumption.
Qed.

Lemma generate_multi_tone_samples (fs : list R) (duration volume : R) (z : Z) :
  SAMPLE_RATE * duration = IZR z -> (0 <= z)%Z ->
  exists w,
    generate_multi_tone fs duration volume = Ok w /\ length w = Z.to_nat z.
Proof.
  intros Hz Hpos. unfold generate_multi_tone.
  rewrite Hz, py_int_IZR, linspace_nonneg, rbind_Ok by assumption.
  eexists. split; [reflexivity |].
  rewrite (chord_length
             (fun freq ti =>
                volume / INR (length fs) * sin (2 * PI * freq * ti))).
  - apply linspace_samples_length.
  - unfold zeros. now rewrite repeat_length, linspace_samples_length.
Qed.

Lemma generate_sweep_samples (f0 f1 duration volume : R) (z : Z) :
  SAMPLE_RATE * duration = IZR z -> (0 <= z)%Z ->
  exists w,
    generate_sweep f0 f1 duration volume = Ok w /\ length w = Z.to_nat z.
Proof.
  intros Hz Hpos. unfold generate_sweep.
  rewrite Hz, py_int_IZR, !linspace_nonneg, !rbind_Ok by assumption.
  eexists. split; [reflexivity |].
  rewrite !length_map. unfold cumsum.
  now rewrite cumsum_from_length, linspace_samples_length.
Qed.

Lemma apply_envelope_samples (w : list R) (attack release : R) (za zr : Z) :
  SAMPLE_RATE * attack = IZR za -> SAMPLE_RATE * release = IZR zr ->
  (0 <= za <= Z.of_nat (length w))%Z ->
  (0 <= zr <= Z.of_nat (length w))%Z ->
  exists w',
    apply_envelope w attack release = Ok w' /\ length w' = length w.
Proof.
  intros Ha Hr Hza Hzr.
  exists (zip_with Rmult w
            (envelope_of (length w) (Z.to_nat za) (Z.to_nat zr))).
  split.
  - apply apply_envelope_ok; try lia.
    + rewrite Ha, py_int_IZR. lia.
    + rewrite Hr, py_int_IZR. lia.
  - apply zip_with_length. rewrite envelope_of_length; lia.
Qed.

Lemma iobind_lift_Ok {A B : Type} (a : A) (k : A -> io B) :
  iobind (lift (Ok a)) k = k a.
Proof. unfold iobind, lift. now destruct (k a). Qed.

Lemma save_as_opus_eq (enc : encoder) (wave : list R) (filename : string) :
  save_as_opus enc wave filename =
  (export_events enc wave filename,
   Ok (match enc with Some _ => true | None => false end)).
Proof.
  unfold export_events, save_as_opus.
  destruct enc as [ffmpeg |]; [| reflexivity].
  destruct (ffmpeg filename (tobytes (normalize wave)) =? 0)%Z; reflexivity.
Qed.

Lemma iobind_events {A B : Type} (tr : list event) (a : A) (k : A -> io B) :
  iobind (tr, Ok a) k = (tr ++ fst (k a), snd (k a)).
Proof. unfold iobind. now destruct (k a). Qed.

Ltac rate := unfold SAMPLE_RATE; lra.

(** [main] raises no exception: it exports eight waveforms to the eight cue
    files in order, between its opening and closing lines. *)
Lemma main_runs (enc : encoder) :
  exists ws : list (list R),
    length ws = 8%nat /\
    main enc =
    ([Print MsgGenerating; Print MsgOutputDir; Mkdir]
       ++ batch_events enc (combine ws cue_files)
       ++ [Print MsgAllGenerated; Print MsgFilesSaved],
     Ok tt).
Proof.
  destruct (generate_multi_tone_samples [800; 1000; 1200] 0.3 0.25 14400)
    as [g1 [G1 LG1]]; [rate | lia |].
  destruct (apply_envelope_samples g1 0.01 0.1 480 4800)
    as [w1 [W1 _]]; [rate | rate | lia | lia |].
  destruct (generate_tone_samples 600 0.3 0.3 14400)
    as [g2 [G2 LG2]]; [rate | lia |].
  destruct (apply_envelope_samples g2 0.01 0.1 480 4800)
    as [w2 [W2 _]]; [rate | rate | lia | lia |].
  destruct (generate_tone_samples 400 0.3 0.3 14400)
    as [g3 [G3 LG3]]; [rate | lia |].
  destruct (apply_envelope_samples g3 0.02 0.1 960 4800)
    as [w3 [W3 _]]; [rate | rate | lia | lia |].
  destruct (generate_multi_tone_samples [200; 210] 0.2 0.3 9600)
    as [g4 [G4 LG4]]; [rate | lia |].
  destruct (apply_envelope_samples g4 0.01 0.05 480 2400)
    as [w4 [W4 _]]; [rate | rate | lia | lia |].
  destruct (generate_sweep_samples 400 800 0.4 0.25 19200)
    as [g5 [G5 LG5]]; [rate | lia |].
  destruct (apply_envelope_samples g5 0.01 0.1 480 4800)
    as [w5 [W5 _]]; [rate | rate | lia | lia |].
  destruct (generate_tone_samples 523 0.15 0.3 7200)
    as [t1 [T1 LT1]]; [rate | lia |].
  destruct (generate_tone_samples 659 0.15 0.3 7200)
    as [t2 [T2 LT2]]; [rate | lia |].
  destruct (generate_tone_samples 784 0.3 0.3 14400)
    as [t3 [T3 LT3]]; [rate | lia |].
  destruct (apply_envelope_samples t1 0.01 0.05 480 2400)
    as [p1 [P1 _]]; [rate | rate | lia | lia |].
  destruct (apply_envelope_samples t2 0.01 0.05 480 2400)
    as [p2 [P2 _]]; [rate | rate | lia | lia |].
  destruct (apply_envelope_samples t3 0.01 0.15 480 7200)
    as [p3 [P3 _]]; [rate | rate | lia | lia |].
  destruct (generate_sweep_samples 400 200 0.5 0.25 24000)
    as [g7 [G7 LG7]]; [rate | lia |].
  destruct (apply_envelope_samples g7 0.02 0.15 960 7200)
    as [w7 [W7 _]]; [rate | rate | lia | lia |].
  destruct (generate_tone_samples 1200 0.05 0.2 2400)
    as [g8 [G8 LG8]]; [rate | lia |].
  destruct (apply_envelope_samples g8 0.005 0.02 240 960)
    as [w8 [W8 _]]; [rate | rate | lia | lia |].
  exists [w1; w2; w3; w4; w5; p1 ++ p2 ++ p3; w7; w8].
  split; [reflexivity |].
  unfold main.
  rewrite G1, iobind_lift_Ok, W1, iobind_lift_Ok.
  rewrite G2, iobind_lift_Ok, W2, iobind_lift_Ok.
  rewrite G3, iobind_lift_Ok, W3, iobind_lift_Ok.
  rewrite G4, iobind_lift_Ok, W4, iobind_lift_Ok.
  rewrite G5, iobind_lift_Ok, W5, iobind_lift_Ok.
  rewrite T1, iobind_lift_Ok, T2, iobind_lift_Ok, T3, iobind_lift_Ok.
  rewrite P1, iobind_lift_Ok, P2, iobind_lift_Ok, P3, iobind_lift_Ok.
  rewrite G7, iobind_lift_Ok, W7, iobind_lift_Ok.
  rewrite G8, iobind_lift_Ok, W8, iobind_lift_Ok.
  rewrite !save_as_opus_eq.
  unfold emit. rewrite !iobind_events.
  cbn [fst snd batch_events combine cue_files flat_map app].
  rewrite app_nil_r, <- !app_assoc. reflexivity.
Qed.

Lemma popen_calls_app (tr1 tr2 : list event) :
  popen_calls (tr1 ++ tr2) = popen_calls tr1 ++ popen_calls tr2.
Proof.
  induction tr1 as [| [m | | f b | f i rc] tr1 IH]; simpl; congruence.
Qed.

Lemma processes_app (tr1 tr2 : list event) :
  processes (tr1 ++ tr2) = processes tr1 ++ processes tr2.
Proof.
  induction tr1 as [| [m | | f b | f i rc] tr1 IH]; simpl; congruence.
Qed.

Lemma printed_app (tr1 tr2 : list event) :
  printed (tr1 ++ tr2) = printed tr1 ++ printed tr2.
Proof.
  induction tr1 as [| [m | | f b | f i rc] tr1 IH]; simpl; congruence.
Qed.

Lemma export_events_None (w : list R) (f : string) :
  export_events None w f = [Popen f false; Print MsgFfmpegNotFound].
Proof. reflexivity. Qed.

Lemma export_events_Some
  (ffmpeg : string -> list Z -> Z) (w : list R) (f : string) :
  export_events (Some ffmpeg) w f =
  [Popen f true;
   Communicate f (tobytes (normalize w)) (ffmpeg f (tobytes (normalize w)));
   Print (if (ffmpeg f (tobytes (normalize w)) =? 0)%Z
          then MsgGenerated f
          else MsgWarning (ffmpeg f (tobytes (normalize w))) f)].
Proof.
  unfold export_events, save_as_opus.
  destruct (ffmpeg f (tobytes (normalize w)) =? 0)%Z; reflexivity.
Qed.

Lemma popen_calls_batch (enc : encoder) (cues : list (list R * string)) :
  popen_calls (batch_events enc cues) = map snd cues.
Proof.
  induction cues as [| [w f] cues IH]; [reflexivity |].
  unfold batch_events in *. cbn [flat_map fst snd map].
  rewrite popen_calls_app, IH. f_equal.
  destruct enc as [ffmpeg |].
  - now rewrite export_events_Some.
  - now rewrite export_events_None.
Qed.

Lemma processes_batch_None (cues : list (list R * string)) :
  processes (batch_events None cues) = [].
Proof.
  induction cues as [| [w f] cues IH]; [reflexivity |].
  unfold batch_events in *. cbn [flat_map fst snd].
  now rewrite processes_app, IH, export_events_None.
Qed.

Lemma printed_batch_None (cues : list (list R * string)) :
  printed (batch_events None cues) = repeat MsgFfmpegNotFound (length cues).
Proof.
  induction cues as [| [w f] cues IH]; [reflexivity |].
  unfold batch_events in *. cbn [flat_map fst snd].
  now rewrite printed_app, IH, export_events_None.
Qed.

Lemma processes_batch_Some
  (ffmpeg : string -> list Z -> Z) (cues : list (list R * string)) :
  processes (batch_events (Some ffmpeg) cues) =
  map (fun c => (snd c, ffmpeg (snd c) (tobytes (normalize (fst c))))) cues.
Proof.
  induction cues as [| [w f] cues IH]; [reflexivity |].
  unfold batch_events in *. cbn [flat_map fst snd map].
  now rewrite processes_app, IH, export_events_Some.
Qed.

Lemma printed_batch_Some
  (ffmpeg : string -> list Z -> Z) (cues : list (list R * string)) :
  printed (batch_events (Some ffmpeg) cues) =
  map (fun c =>
         let rc := ffmpeg (snd c) (tobytes (normalize (fst c))) in
         if (rc =? 0)%Z then MsgGenerated (snd c)
         else MsgWarning rc (snd c)) cues.
Proof.
  induction cues as [| [w f] cues IH]; [reflexivity |].
  unfold batch_events in *. cbn [flat_map fst snd map].
  now rewrite printed_app, IH, export_events_Some.
Qed.

Lemma cue_of_file (cues : list (list R * string)) (w1 w2 : list R) (f : string) :
  NoDup (map snd cues) -> In (w1, f) cues -> In (w2, f) cues -> w1 = w2.
Proof.
  induction cues as [| [w g] cues IH]; intros Hnd H1 H2; [contradiction |].
  cbn [map snd] in Hnd. inversion Hnd as [| ? ? Hnotin Hnd']; subst.
  destruct H1 as [H1 | H1], H2 as [H2 | H2].
  - congruence.
  - inversion H1; subst. exfalso. apply Hnotin.
    change f with (snd (w2, f)). now apply in_map.
  - inversion H2; subst. exfalso. apply Hnotin.
    change f with (snd (w1, f)). now apply in_map.
  - now apply IH.
Qed.

Lemma snd_combine_cues (ws : list (list R)) :
  length ws = 8%nat -> map snd (combine ws cue_files) = cue_files.
Proof.
  intros L.
  do 8 (destruct ws as [| ? ws]; [discriminate L |]).
  destruct ws; [reflexivity | discriminate L].
Qed.

Lemma cue_files_NoDup : NoDup cue_files.
Proof.
  unfold cue_files.
  repeat (constructor; [simpl; intuition discriminate |]). constructor.
Qed.

Lemma main_present_readings (ffmpeg : string -> list Z -> Z) :
  exists cues : list (list R * string),
    map snd cues = cue_files /\
    snd (main (Some ffmpeg)) = Ok tt /\
    popen_calls (fst (main (Some ffmpeg))) = cue_files /\
    processes (fst (main (Some ffmpeg))) =
    map (fun c => (snd c, ffmpeg (snd c) (tobytes (normalize (fst c))))) cues /\
    printed (fst (main (Some ffmpeg))) =
    [MsgGenerating; MsgOutputDir]
      ++ map (fun c =>
                let rc := ffmpeg (snd c) (tobytes (normalize (fst c))) in
                if (rc =? 0)%Z then MsgGenerated (snd c)
                else MsgWarning rc (snd c)) cues
      ++ [MsgAllGenerated; MsgFilesSaved].
Proof.
  destruct (main_runs (Some ffmpeg)) as [ws [L E]].
  exists (combine ws cue_files). rewrite E. cbn [fst snd].
  split; [now apply snd_combine_cues |]. split; [reflexivity |].
  rewrite !popen_calls_app, !processes_app, !printed_app.
  rewrite popen_calls_batch, processes_batch_Some, printed_batch_Some.
  rewrite snd_combine_cues by assumption.
  cbn [popen_calls processes printed app]. rewrite !app_nil_r.
  repeat split; reflexivity.
Qed.

(** C6: when the encoder is present and the process for one cue file exits
    with a nonzero status, a warning naming that file and status is printed
    and the success line for that file is not; the run is not aborted:
    [main] returns normally, having called the encoder for each of the eight
    cue files in order. *)
Theorem encoder_failure_not_fatal
  (ffmpeg : string -> list Z -> Z) (f : string) (rc : Z) :
  In (f, rc) (processes (fst (main (Some ffmpeg)))) ->
  rc <> 0%Z ->
  In (MsgWarning rc f) (printed (fst (main (Some ffmpeg)))) /\
  ~ In (MsgGenerated f) (printed (fst (main (Some ffmpeg)))) /\
  snd (main (Some ffmpeg)) = Ok tt /\
  popen_calls (fst (main (Some ffmpeg))) = cue_files /\
  map fst (processes (fst (main (Some ffmpeg)))) = cue_files.
Proof.
  destruct (main_present_readings ffmpeg)
    as [cues [Hfiles [Hok [Hpopen [Hproc Hprint]]]]].
  rewrite Hproc, Hprint, Hok, Hpopen. intros Hin Hrc.
  apply in_map_iff in Hin. destruct Hin as [[w g] [Heq Hcue]].
  cbn [fst snd] in Heq. inversion Heq; subst g. clear Heq.
  assert (Hne : (rc =? 0)%Z = false) by now apply Z.eqb_neq.
  split; [| split; [| split; [reflexivity | split; [reflexivity |]]]].
  - apply in_or_app. right. apply in_or_app. left.
    apply in_map_iff. exists (w, f). split; [| assumption].
    cbn [fst snd]. subst rc. now rewrite Hne.
  - intros Hgen. apply in_app_or in Hgen.
    destruct Hgen as [Hgen | Hgen];
      [simpl in Hgen; intuition discriminate |].
    apply in_app_or in Hgen.
    destruct Hgen as [Hgen | Hgen];
      [| simpl in Hgen; intuition discriminate].
    apply in_map_iff in Hgen. destruct Hgen as [[w' g'] [Hmsg Hcue']].
    cbn [fst snd] in Hmsg.
    destruct (ffmpeg g' (tobytes (normalize w')) =? 0)%Z eqn:Hz;
      [| discriminate Hmsg].
    inversion Hmsg; subst g'.
    assert (w' = w).
    { apply (cue_of_file cues w' w f); try assumption.
      rewrite Hfiles. apply cue_files_NoDup. }
    subst w'. subst rc. congruence.
  - rewrite map_map. cbn [fst]. exact Hfiles.
Qed.

(** An encoder that fails with status 1 on [ok.opus] and succeeds on every
    other file. *)
Lemma encoder_failure_not_fatal_witness :
  let ffmpeg := fun (f : string) (_ : list Z) =>
                  if String.eqb f "ok.opus" then 1%Z else 0%Z in
  In (MsgWarning 1 "ok.opus") (printed (fst (main (Some ffmpeg)))) /\
  ~ In (MsgGenerated "ok.opus") (printed (fst (main (Some ffmpeg)))) /\
  snd (main (Some ffmpeg)) = Ok tt /\
  popen_calls (fst (main (Some ffmpeg))) = cue_files /\
  map fst (processes (fst (main (Some ffmpeg)))) = cue_files.
Proof.
  intros ffmpeg.
  apply (encoder_failure_not_fatal ffmpeg "ok.opus" 1).
  - destruct (main_runs (Some ffmpeg)) as [ws [L E]]. rewrite E.
    destruct ws
      as [| w1 [| w2 [| w3 [| w4 [| w5 [| w6 [| w7 [| w8 [| ? ?]]]]]]]]];
      try discriminate L.
    cbn [fst]. rewrite !processes_app, processes_batch_Some.
    apply in_or_app. right. apply in_or_app. left.
    simpl. right. right. left. reflexivity.
  - discriminate.
Defined.

(** C2, as amended: when the encoder executable is absent, every export
    reports the missing encoder (its own message, and the result [False])
    and starts no encoder process, so no output file is produced; [main]
    does not stop there: it goes on to attempt the export of each of the
    eight cue files, each attempt reporting the missing encoder, and ends
    normally with its closing lines. *)
Theorem missing_encoder_run :
  (forall (w : list R) (f : string),
      save_as_opus None w f
      = ([Popen f false; Print MsgFfmpegNotFound], Ok false)) /\
  snd (main None) = Ok tt /\
  processes (fst (main None)) = [] /\
  popen_calls (fst (main None)) = cue_files /\
  printed (fst (main None)) =
  [MsgGenerating; MsgOutputDir]
    ++ repeat MsgFfmpegNotFound 8
    ++ [MsgAllGenerated; MsgFilesSaved].
Proof.
  split; [reflexivity |].
  destruct (main_runs None) as [ws [L E]]. rewrite E. cbn [fst snd].
  split; [reflexivity |].
  rewrite !popen_calls_app, !processes_app, !printed_app.
  rewrite popen_calls_batch, processes_batch_None, printed_batch_None.
  rewrite snd_combine_cues by assumption.
  assert (Lc : length (combine ws cue_files) = 8%nat).
  { rewrite <- (length_map snd), snd_combine_cues by assumption.
    reflexivity. }
  rewrite Lc. repeat split; reflexivity.
Qed.

(** C2, refuted as stated: with the encoder absent, the first report of the
    missing encoder (for [perfect.opus]) is followed by seven more export
    attempts. *)
Lemma missing_encoder_does_not_stop :
  ~ stops_at_missing_encoder (fst (main None)).
Proof.
  destruct (main_runs None) as [ws [L E]]. rewrite E.
  destruct ws
    as [| w1 [| w2 [| w3 [| w4 [| w5 [| w6 [| w7 [| w8 [| ? ?]]]]]]]]];
    try discriminate L.
  cbn [fst]. intros Hstop.
  specialize
    (Hstop
       [Print MsgGenerating; Print MsgOutputDir; Mkdir;
        Popen "perfect.opus" false]
       (batch_events None
          (combine [w2; w3; w4; w5; w6; w7; w8] (tl cue_files))
          ++ [Print MsgAllGenerated; Print MsgFilesSaved])
       eq_refl).
  rewrite popen_calls_app, popen_calls_batch in Hstop.
  discriminate Hstop.
Qed.

(** * Further properties of the generators *)

Lemma py_int_negative_iff (x : R) : (py_int x < 0)%Z <-> x <= -1.
Proof.
  unfold py_int. destruct (Rle_dec 0 x) as [Hx | Hx].
  - destruct (base_Int_part x) as [H1 H2]. split; intros H.
    + assert (H' : (Int_part x <= -1)%Z) by lia.
      apply IZR_le in H'. lra.
    + lra.
  - destruct (base_Int_part (- x)) as [H1 H2]. split; intros H.
    + assert (H'' : (1 <= Int_part (- x))%Z) by lia.
      apply IZR_le in H''. lra.
    + assert (H' : IZR 0 < IZR (Int_part (- x))) by lra.
      apply lt_IZR in H'. lia.
Qed.

Lemma py_int_small (x : R) : -1 < x < 1 -> py_int x = 0%Z.
Proof.
  intros [Hlo Hhi]. unfold py_int. destruct (Rle_dec 0 x) as [Hx | Hx].
  - symmetry. apply Int_part_spec. lra.
  - replace (Int_part (- x)) with 0%Z; [reflexivity |].
    apply Int_part_spec. lra.
Qed.

(** X1: each of the three generators raises [ValueError] exactly when the
    sample count [int(SAMPLE_RATE * duration)] is negative, that is when
    [SAMPLE_RATE * duration <= -1]; a negative duration closer to zero is
    not an error. *)
Theorem generators_raise_iff (duration volume : R) :
  (forall f : R,
      generate_tone f duration volume = Raise ValueError
      <-> SAMPLE_RATE * duration <= -1) /\
  (forall fs : list R,
      generate_multi_tone fs duration volume = Raise ValueError
      <-> SAMPLE_RATE * duration <= -1) /\
  (forall f0 f1 : R,
      generate_sweep f0 f1 duration volume = Raise ValueError
      <-> SAMPLE_RATE * duration <= -1).
Proof.
  pose proof (py_int_negative_iff (SAMPLE_RATE * duration)) as Hneg.
  repeat split; intros H.
  - unfold generate_tone, linspace in H.
    destruct (Z.ltb_spec (py_int (SAMPLE_RATE * duration)) 0);
      [now apply Hneg | discriminate H].
  - unfold generate_tone, linspace.
    destruct (Z.ltb_spec (py_int (SAMPLE_RATE * duration)) 0);
      [reflexivity | apply Hneg in H; lia].
  - unfold generate_multi_tone, linspace in H.
    destruct (Z.ltb_spec (py_int (SAMPLE_RATE * duration)) 0);
      [now apply Hneg | discriminate H].
  - unfold generate_multi_tone, linspace.
    destruct (Z.ltb_spec (py_int (SAMPLE_RATE * duration)) 0);
      [reflexivity | apply Hneg in H; lia].
  - unfold generate_sweep, linspace in H.
    destruct (Z.ltb_spec (py_int (SAMPLE_RATE * duration)) 0);
      [now apply Hneg | discriminate H].
  - unfold generate_sweep, linspace.
    destruct (Z.ltb_spec (py_int (SAMPLE_RATE * duration)) 0);
      [reflexivity | apply Hneg in H; lia].
Qed.

(** X2: a duration shorter than one sample period, of either sign, gives
    the empty waveform from each of the three generators, not an error. *)
Theorem generators_empty_below_one_sample (duration volume : R) :
  -1 < SAMPLE_RATE * duration < 1 ->
  (forall f : R, generate_tone f duration volume = Ok []) /\
  (forall fs : list R, generate_multi_tone fs duration volume = Ok []) /\
  (forall f0 f1 : R, generate_sweep f0 f1 duration volume = Ok []).
Proof.
  intros H. pose proof (py_int_small _ H) as E.
  repeat split; intros.
  - unfold generate_tone. now rewrite E.
  - unfold generate_multi_tone. rewrite E. cbn.
    f_equal. induction fs as [| f fs IH]; [reflexivity | exact IH].
  - unfold generate_sweep. now rewrite E.
Qed.

(** A duration of 1/65536 s, about 0.73 of a sample period. *)
Lemma generators_empty_below_one_sample_witness :
  (forall f : R, generate_tone f (1 / 65536) (1 / 4) = Ok []) /\
  (forall fs : list R, generate_multi_tone fs (1 / 65536) (1 / 4) = Ok []) /\
  (forall f0 f1 : R, generate_sweep f0 f1 (1 / 65536) (1 / 4) = Ok []).
Proof.
  apply (generators_empty_below_one_sample (1 / 65536) (1 / 4)).
  unfold SAMPLE_RATE. lra.
Defined.

(** X3: a negative frequency is a phase reversal: the tone of frequency
    [- f] is the tone of frequency [f] at the opposite volume. *)
Theorem tone_negative_frequency (f duration volume : R) :
  generate_tone (- f) duration volume = generate_tone f duration (- volume).
Proof.
  unfold generate_tone.
  destruct (linspace 0 duration (py_int (SAMPLE_RATE * duration)) false)
    as [t | e]; [| reflexivity].
  rewrite !rbind_Ok. f_equal. apply map_ext. intros ti.
  replace (2 * PI * - f * ti) with (- (2 * PI * f * ti)) by ring.
  rewrite sin_neg. ring.
Qed.

(** Sample [i] of the chord accumulated over the frequencies [fs], starting
    from the array [wave]. *)
Lemma chord_nth (g : R -> R -> R) (t : list R) (fs : list R) (i : nat) :
  forall wave : list R,
    length wave = length t -> (i < length t)%nat ->
    nth i (fold_left
             (fun wave freq => zip_with Rplus wave (map (g freq) t))
             fs wave) 0
    = fold_left Rplus (map (fun f => g f (nth i t 0)) fs) (nth i wave 0).
Proof.
  induction fs as [| f fs IH]; intros wave Hw Hi; [reflexivity |].
  cbn [fold_left map]. rewrite IH.
  - f_equal. rewrite zip_with_nth by (rewrite ?length_map; lia).
    now rewrite map_nth_in by assumption.
  - rewrite zip_with_length; rewrite ?length_map; assumption.
  - assumption.
Qed.

Lemma fold_sum_bound (xs : list R) (c : R) :
  (forall x, In x xs -> Rabs x <= c) ->
  forall acc : R,
    Rabs (fold_left Rplus xs acc) <= Rabs acc + INR (length xs) * c.
Proof.
  induction xs as [| x xs IH]; intros Hc acc.
  - simpl. lra.
  - cbn [fold_left]. rewrite (IH (fun y Hy => Hc y (or_intror Hy))).
    change (length (x :: xs)) with (S (length xs)). rewrite S_INR.
    pose proof (Rabs_triang acc x).
    pose proof (Hc x (or_introl eq_refl)). lra.
Qed.

Lemma generate_multi_tone_ok (fs : list R) (duration volume : R) :
  0 <= duration ->
  generate_multi_tone fs duration volume =
  Ok (fold_left
        (fun wave freq =>
           zip_with Rplus wave
             (map (fun ti =>
                     volume / INR (length fs) * sin (2 * PI * freq * ti))
                (linspace_samples 0 duration
                   (Z.to_nat (py_int (SAMPLE_RATE * duration))) false)))
        fs (zeros (Z.to_nat (py_int (SAMPLE_RATE * duration))))).
Proof.
  intros Hd. unfold generate_multi_tone.
  now rewrite linspace_nonneg, rbind_Ok by now apply samples_nonneg.
Qed.

Lemma zeros_nth (n i : nat) : nth i (zeros n) 0 = 0.
Proof. unfold zeros. apply nth_repeat. Qed.

Lemma generate_multi_tone_bounded (fs : list R) (duration volume : R) :
  0 <= duration ->
  exists w,
    generate_multi_tone fs duration volume = Ok w /\
    Z.of_nat (length w) = py_int (SAMPLE_RATE * duration) /\
    forall i : nat, Rabs (nth i w 0) <= Rabs volume.
Proof.
  intros Hd.
  pose proof (samples_nonneg _ Hd) as Hn.
  set (n := Z.to_nat (py_int (SAMPLE_RATE * duration))).
  set (t := linspace_samples 0 duration n false).
  set (g := fun freq ti : R =>
              volume / INR (length fs) * sin (2 * PI * freq * ti)).
  exists (fold_left
            (fun wave freq => zip_with Rplus wave (map (g freq) t))
            fs (zeros n)).
  split; [exact (generate_multi_tone_ok fs duration volume Hd) |].
  assert (Lt : length t = n) by apply linspace_samples_length.
  assert (Lz : length (zeros n) = length t)
    by (unfold zeros; now rewrite repeat_length).
  assert (L : length
                (fold_left
                   (fun wave freq => zip_with Rplus wave (map (g freq) t))
                   fs (zeros n)) = n)
    by (rewrite (chord_length g); assumption).
  split; [rewrite L; unfold n; lia |].
  intros i. destruct (Nat.lt_ge_cases i n) as [Hi | Hi].
  - rewrite (chord_nth g) by (try assumption; lia).
    rewrite zeros_nth.
    destruct fs as [| f0 fs'].
    + simpl. rewrite Rabs_R0. apply Rabs_pos.
    + set (k := length (f0 :: fs')) in *.
      assert (Hk : 0 < INR k) by (apply lt_0_INR; unfold k; simpl; lia).
      rewrite (fold_sum_bound _ (Rabs volume / INR k)).
      * rewrite length_map, Rabs_R0. fold k.
        replace (0 + INR k * (Rabs volume / INR k)) with (Rabs volume)
          by (field; lra).
        lra.
      * intros x Hx. apply in_map_iff in Hx. destruct Hx as [f [<- _]].
        unfold g. rewrite Rabs_mult.
        unfold Rdiv at 1. rewrite Rabs_mult, (Rabs_right (/ INR k))
          by (left; now apply Rinv_0_lt_compat).
        pose proof (SIN_bound (2 * PI * f * nth i t 0)) as Hsin.
        assert (Hs : Rabs (sin (2 * PI * f * nth i t 0)) <= 1)
          by (apply Rabs_le; lra).
        assert (Hv : 0 <= Rabs volume * / INR k).
        { apply Rmult_le_pos; [apply Rabs_pos |].
          left. now apply Rinv_0_lt_compat. }
        pose proof (Rabs_pos (sin (2 * PI * f * nth i t 0))).
        unfold Rdiv. nra.
  - rewrite nth_overflow by lia. rewrite Rabs_R0. apply Rabs_pos.
Qed.

(** X4: for a non-negative duration, a chord of any number of frequencies,
    none included, is a waveform of [int(SAMPLE_RATE * duration)] samples
    each at most the volume in absolute value: the division of the volume by
    the number of tones keeps the sum within the volume. *)
Theorem multi_tone_amplitude (fs : list R) (duration volume : R) :
  0 <= duration ->
  exists w,
    generate_multi_tone fs duration volume = Ok w /\
    Z.of_nat (length w) = py_int (SAMPLE_RATE * duration) /\
    forall i : nat, Rabs (nth i w 0) <= Rabs volume.
Proof. exact (generate_multi_tone_bounded fs duration volume). Qed.

(** The chord of the first cue, over 1/128 s. *)
Lemma multi_tone_amplitude_witness :
  exists w,
    generate_multi_tone [800; 1000; 1200] (1 / 128) (1 / 4) = Ok w /\
    Z.of_nat (length w) = py_int (SAMPLE_RATE * (1 / 128)) /\
    forall i : nat, Rabs (nth i w 0) <= Rabs (1 / 4).
Proof.
  apply (multi_tone_amplitude [800; 1000; 1200] (1 / 128) (1 / 4)). lra.
Defined.

(** X5: a chord is the sum of its tones: for a non-negative duration, sample
    [i] of [generate_multi_tone(fs, d, v)] is the sum, over the frequencies
    [f] of [fs] in order, of sample [i] of [generate_tone(f, d, v / len(fs))]. *)
Theorem multi_tone_sum_of_tones (fs : list R) (duration volume : R) :
  0 <= duration ->
  exists w,
    generate_multi_tone fs duration volume = Ok w /\
    forall i : nat,
      (i < length w)%nat ->
      nth i w 0 =
      sum_list
        (map (fun f =>
                nth i
                  (samples_of_result
                     (generate_tone f duration (volume / INR (length fs))))
                  0) fs).
Proof.
  intros Hd.
  set (n := Z.to_nat (py_int (SAMPLE_RATE * duration))).
  set (t := linspace_samples 0 duration n false).
  set (g := fun freq ti : R =>
              volume / INR (length fs) * sin (2 * PI * freq * ti)).
  exists (fold_left
            (fun wave freq => zip_with Rplus wave (map (g freq) t))
            fs (zeros n)).
  split; [exact (generate_multi_tone_ok fs duration volume Hd) |].
  assert (Lt : length t = n) by apply linspace_samples_length.
  assert (Lz : length (zeros n) = length t)
    by (unfold zeros; now rewrite repeat_length).
  intros i Hi. rewrite (chord_length g) in Hi by assumption.
  rewrite (chord_nth g) by assumption.
  rewrite zeros_nth. unfold sum_list. f_equal.
  apply map_ext. intros f.
  rewrite generate_tone_ok by assumption. cbn [samples_of_result].
  fold n. fold t. now rewrite map_nth_in by assumption.
Qed.

(** The chord of the fourth cue, over 1/128 s. *)
Lemma multi_tone_sum_of_tones_witness :
  exists w,
    generate_multi_tone [200; 210] (1 / 128) (3 / 10) = Ok w /\
    forall i : nat,
      (i < length w)%nat ->
      nth i w 0 =
      sum_list
        (map (fun f =>
                nth i
                  (samples_of_result
                     (generate_tone f (1 / 128)
                        (3 / 10 / INR (length [200; 210]))))
                  0) [200; 210]).
Proof.
  apply (multi_tone_sum_of_tones [200; 210] (1 / 128) (3 / 10)). lra.
Defined.

(** Running sums of an arithmetic progression [k * step + s],
    [(k + 1) * step + s], ... *)
Lemma cumsum_from_progression (step s : R) (m : nat) :
  forall (k i : nat) (acc : R),
    (i < m)%nat ->
    nth i (cumsum_from acc (map (fun j => INR j * step + s) (seq k m))) 0
    = acc + INR (S i) * s
      + step * (INR (S i) * INR k + INR i * INR (S i) / 2).
Proof.
  induction m as [| m IH]; intros k i acc Hi; [lia |].
  cbn [seq map cumsum_from]. destruct i as [| i].
  - cbn [nth]. simpl. lra.
  - cbn [nth]. rewrite IH by lia. rewrite !S_INR. field.
Qed.

Lemma generate_sweep_bounded (f0 f1 duration volume : R) :
  0 <= duration ->
  exists w,
    generate_sweep f0 f1 duration volume = Ok w /\
    Z.of_nat (length w) = py_int (SAMPLE_RATE * duration) /\
    forall i : nat, Rabs (nth i w 0) <= Rabs volume.
Proof.
  intros Hd. eexists. split; [now apply generate_sweep_ok |].
  pose proof (samples_nonneg _ Hd) as Hn.
  split.
  - rewrite !length_map. unfold cumsum.
    rewrite cumsum_from_length, linspace_samples_length. lia.
  - intros i.
    set (phase := map (fun c => 2 * PI * c / SAMPLE_RATE) _).
    destruct (Nat.lt_ge_cases i (length phase)) as [Hi | Hi].
    + rewrite map_nth_in by assumption. rewrite Rabs_mult.
      pose proof (SIN_bound (nth i phase 0)) as Hsin.
      assert (Rabs (sin (nth i phase 0)) <= 1) by (apply Rabs_le; lra).
      pose proof (Rabs_pos volume). nra.
    + rewrite nth_overflow by now rewrite length_map.
      rewrite Rabs_R0. apply Rabs_pos.
Qed.

(** X6: for a non-negative duration, a sweep is a waveform of
    [int(SAMPLE_RATE * duration)] samples, each at most the volume in
    absolute value, whatever the two frequencies. *)
Theorem sweep_length_amplitude (f0 f1 duration volume : R) :
  0 <= duration ->
  exists w,
    generate_sweep f0 f1 duration volume = Ok w /\
    Z.of_nat (length w) = py_int (SAMPLE_RATE * duration) /\
    forall i : nat, Rabs (nth i w 0) <= Rabs volume.
Proof. exact (generate_sweep_bounded f0 f1 duration volume). Qed.

(** The sweep of the fifth cue, over 1/128 s. *)
Lemma sweep_length_amplitude_witness :
  exists w,
    generate_sweep 400 800 (1 / 128) (1 / 4) = Ok w /\
    Z.of_nat (length w) = py_int (SAMPLE_RATE * (1 / 128)) /\
    forall i : nat, Rabs (nth i w 0) <= Rabs (1 / 4).
Proof.
  apply (sweep_length_amplitude 400 800 (1 / 128) (1 / 4)). lra.
Defined.

(** X7: the closed form of a sweep of at least two samples: with [n] the
    number of samples, sample [i] is
    [volume * sin(2 pi ((i + 1) f0 + (f1 - f0) / (n - 1) * i (i + 1) / 2)
     / SAMPLE_RATE)],
    the phase being the sum of the instantaneous frequencies
    [f0 + j (f1 - f0) / (n - 1)] for [j] from [0] to [i] inclusive. *)
Theorem sweep_closed_form (f0 f1 duration volume : R) :
  0 <= duration ->
  exists w,
    generate_sweep f0 f1 duration volume = Ok w /\
    forall i : nat,
      (2 <= length w)%nat -> (i < length w)%nat ->
      nth i w 0 =
      volume
      * sin (2 * PI
             * (INR (S i) * f0
                + (f1 - f0) / INR (length w - 1) * (INR i * INR (S i) / 2))
             / SAMPLE_RATE).
Proof.
  intros Hd. eexists. split; [now apply generate_sweep_ok |].
  set (n := Z.to_nat (py_int (SAMPLE_RATE * duration))).
  assert (Lc : length (cumsum (linspace_samples f0 f1 n true)) = n)
    by (unfold cumsum; now rewrite cumsum_from_length,
          linspace_samples_length).
  rewrite !length_map, Lc. intros i Hn Hi.
  rewrite map_nth_in by now rewrite length_map, Lc.
  rewrite map_nth_in by now rewrite Lc.
  unfold cumsum, linspace_samples.
  replace (0 <? n - 1)%nat with true by (symmetry; apply Nat.ltb_lt; lia).
  rewrite cumsum_from_progression by assumption.
  f_equal. f_equal. change (INR 0) with 0. unfold Rdiv. ring.
Qed.

(** A sweep from 400 Hz to 800 Hz over 1/128 s (375 samples). *)
Lemma sweep_closed_form_witness :
  exists w,
    generate_sweep 400 800 (1 / 128) (1 / 4) = Ok w /\
    forall i : nat,
      (2 <= length w)%nat -> (i < length w)%nat ->
      nth i w 0 =
      1 / 4
      * sin (2 * PI
             * (INR (S i) * 400
                + (800 - 400) / INR (length w - 1) * (INR i * INR (S i) / 2))
             / SAMPLE_RATE).
Proof.
  apply (sweep_closed_form 400 800 (1 / 128) (1 / 4)). lra.
Defined.

(** * Further properties of the envelope *)

Lemma set_slice_outcome (arr : list R) (lo hi : nat) (vals : list R) :
  (lo <= hi <= length arr)%nat ->
  (set_slice arr lo hi vals = Raise ValueError
   <-> length vals <> (hi - lo)%nat /\ length vals <> 1%nat)
  /\ (forall env, set_slice arr lo hi vals = Ok env ->
                  length env = length arr).
Proof.
  intros Hb. unfold set_slice.
  assert (Lf : length (firstn lo arr) = lo)
    by (rewrite length_firstn; lia).
  assert (Ls : length (skipn hi arr) = (length arr - hi)%nat)
    by apply length_skipn.
  destruct (Nat.eqb_spec (length vals) (hi - lo)) as [E | N].
  - split.
    + split; [discriminate | intros [H _]; contradiction].
    + intros env H. inversion H; subst env.
      rewrite !length_app, Lf, Ls. lia.
  - destruct vals as [| v [| v' vals]].
    + split.
      * split; [intros _; split; [assumption | discriminate] | reflexivity].
      * discriminate.
    + split.
      * split; [discriminate | intros [_ H]; now contradiction H].
      * intros env H. inversion H; subst env.
        rewrite !length_app, repeat_length, Lf, Ls. lia.
    + split.
      * split; [intros _; split; [assumption | discriminate] | reflexivity].
      * discriminate.
Qed.

Lemma apply_envelope_steps (w : list R) (attack release : R) :
  apply_envelope w attack release =
  (env1 <- attack_step (length w) (ones (length w))
             (py_int (SAMPLE_RATE * attack)) ;;
   env2 <- release_step (length w) env1 (py_int (SAMPLE_RATE * release)) ;;
   Ok (zip_with Rmult w env2)).
Proof. reflexivity. Qed.

Lemma window_step_outcome
  (step : nat -> list R -> Z -> result (list R)) (n : nat) (env : list R)
  (z : Z) :
  step = attack_step \/ step = release_step ->
  length env = n ->
  (step n env z = Raise ValueError <-> (2 <= z)%Z /\ (Z.of_nat n < z)%Z)
  /\ (forall env', step n env z = Ok env' -> length env' = n).
Proof.
  intros Hstep Hn.
  assert (Hgen : forall (s e : R) (lo hi : nat),
             (lo <= hi <= n)%nat ->
             (hi - lo)%nat = Nat.min (Z.to_nat z) n ->
             ((if (z >? 0)%Z
               then ramp <- linspace s e z true ;; set_slice env lo hi ramp
               else Ok env) = Raise ValueError
              <-> (2 <= z)%Z /\ (Z.of_nat n < z)%Z)
             /\ (forall env',
                    (if (z >? 0)%Z
                     then ramp <- linspace s e z true ;;
                          set_slice env lo hi ramp
                     else Ok env) = Ok env' -> length env' = n)).
  { intros s e lo hi Hb Hw.
    destruct (Z.gtb_spec z 0) as [Hpos | Hle].
    - rewrite linspace_nonneg, rbind_Ok by lia.
      destruct (set_slice_outcome env lo hi
                  (linspace_samples s e (Z.to_nat z) true)) as [Hr Hl];
        [lia |].
      rewrite linspace_samples_length in Hr. split.
      + rewrite Hr, Hw. split; intros H; lia.
      + intros env' H. rewrite (Hl env' H). exact Hn.
    - split.
      + split; [discriminate | lia].
      + intros env' H. inversion H; subst env'. exact Hn. }
  destruct Hstep as [-> | ->].
  - apply (Hgen 0 1 0%nat (Nat.min (Z.to_nat z) n)); lia.
  - apply (Hgen 1 0 (n - Nat.min (Z.to_nat z) n)%nat n); lia.
Qed.

Lemma apply_envelope_raises (w : list R) (attack release : R) :
  apply_envelope w attack release = Raise ValueError
  <-> ((2 <= py_int (SAMPLE_RATE * attack))%Z
       /\ (Z.of_nat (length w) < py_int (SAMPLE_RATE * attack))%Z)
      \/ ((2 <= py_int (SAMPLE_RATE * release))%Z
          /\ (Z.of_nat (length w) < py_int (SAMPLE_RATE * release))%Z).
Proof.
  rewrite apply_envelope_steps.
  set (n := length w).
  destruct (window_step_outcome attack_step n (ones n)
              (py_int (SAMPLE_RATE * attack)))
    as [Ha La]; [now left | apply ones_length |].
  destruct (attack_step n (ones n) (py_int (SAMPLE_RATE * attack)))
    as [env1 | []] eqn:E1.
  - rewrite rbind_Ok.
    destruct (window_step_outcome release_step n env1
                (py_int (SAMPLE_RATE * release)))
      as [Hr Lr]; [now right | now apply La |].
    destruct (release_step n env1 (py_int (SAMPLE_RATE * release)))
      as [env2 | []] eqn:E2.
    + rewrite rbind_Ok. split; [discriminate |].
      intros [H | H]; [apply Ha in H | apply Hr in H]; discriminate.
    + split; [intros _; right; now apply Hr | reflexivity].
  - split; [intros _; left; now apply Ha | reflexivity].
Qed.

(** X8: [apply_envelope] raises [ValueError] exactly when one of the two
    windows has at least two samples and more samples than the waveform; a
    window of one sample, or of no sample, never raises. *)
Theorem envelope_raises_iff (w : list R) (attack release : R) :
  apply_envelope w attack release = Raise ValueError
  <-> ((2 <= py_int (SAMPLE_RATE * attack))%Z
       /\ (Z.of_nat (length w) < py_int (SAMPLE_RATE * attack))%Z)
      \/ ((2 <= py_int (SAMPLE_RATE * release))%Z
          /\ (Z.of_nat (length w) < py_int (SAMPLE_RATE * release))%Z).
Proof. exact (apply_envelope_raises w attack release). Qed.

Lemma attack_step_fits (n : nat) (z : Z) :
  (Z.to_nat z <= n)%nat ->
  attack_step n (ones n) z =
  Ok (attack_ramp (Z.to_nat z) ++ ones (n - Z.to_nat z)).
Proof.
  intros Hfit. unfold attack_step.
  destruct (Z.gtb_spec z 0) as [Hpos | Hle].
  - rewrite linspace_nonneg, rbind_Ok by lia. unfold set_slice.
    fold (attack_ramp (Z.to_nat z)). rewrite attack_ramp_length.
    replace (Nat.min (Z.to_nat z) n) with (Z.to_nat z) by lia.
    rewrite Nat.sub_0_r, Nat.eqb_refl. now rewrite skipn_ones.
  - replace (Z.to_nat z) with 0%nat by lia. now rewrite Nat.sub_0_r.
Qed.

Lemma release_step_fits (n : nat) (env : list R) (z : Z) :
  length env = n -> (Z.to_nat z <= n)%nat ->
  release_step n env z =
  Ok (firstn (n - Z.to_nat z) env ++ release_ramp (Z.to_nat z)).
Proof.
  intros Hn Hfit. unfold release_step.
  destruct (Z.gtb_spec z 0) as [Hpos | Hle].
  - rewrite linspace_nonneg, rbind_Ok by lia. unfold set_slice.
    fold (release_ramp (Z.to_nat z)). rewrite release_ramp_length.
    replace (Nat.min (Z.to_nat z) n) with (Z.to_nat z) by lia.
    replace (n - (n - Z.to_nat z))%nat with (Z.to_nat z) by lia.
    rewrite Nat.eqb_refl, (skipn_all2 env) by lia. now rewrite app_nil_r.
  - replace (Z.to_nat z) with 0%nat by lia.
    rewrite Nat.sub_0_r, firstn_all2 by lia.
    unfold release_ramp, linspace_samples. simpl. now rewrite app_nil_r.
Qed.

(** [apply_envelope] when both windows, a negative count standing for none,
    fit in the waveform. *)
Lemma apply_envelope_clamped (w : list R) (attack release : R) :
  (Z.to_nat (py_int (SAMPLE_RATE * attack)) <= length w)%nat ->
  (Z.to_nat (py_int (SAMPLE_RATE * release)) <= length w)%nat ->
  apply_envelope w attack release =
  Ok (zip_with Rmult w
        (envelope_of (length w)
           (Z.to_nat (py_int (SAMPLE_RATE * attack)))
           (Z.to_nat (py_int (SAMPLE_RATE * release))))).
Proof.
  intros Ha Hr. rewrite apply_envelope_steps.
  rewrite attack_step_fits, rbind_Ok by assumption.
  rewrite release_step_fits, rbind_Ok; try assumption.
  - reflexivity.
  - rewrite length_app, attack_ramp_length, ones_length. lia.
Qed.

(** X9: whenever [apply_envelope] returns, the result has the length of the
    waveform and no sample of it is larger in absolute value than the
    original sample at the same index, overlapping windows included. *)
Theorem envelope_never_amplifies (w w' : list R) (attack release : R) :
  apply_envelope w attack release = Ok w' ->
  length w' = length w /\
  forall i : nat, Rabs (nth i w' 0) <= Rabs (nth i w 0).
Proof.
  intros H. destruct (Nat.eq_dec (length w) 0) as [Hz | Hnz].
  - apply length_zero_iff_nil in Hz. subst w.
    rewrite apply_envelope_steps in H.
    destruct (attack_step _ _ _) as [env1 | e]; [| discriminate H].
    rewrite rbind_Ok in H.
    destruct (release_step _ _ _) as [env2 | e]; [| discriminate H].
    rewrite rbind_Ok in H. inversion H; subst w'.
    split; [reflexivity | intros i; lra].
  - assert (Hnot : apply_envelope w attack release <> Raise ValueError)
      by (rewrite H; discriminate).
    rewrite apply_envelope_raises in Hnot.
    assert (Ha : (Z.to_nat (py_int (SAMPLE_RATE * attack)) <= length w)%nat)
      by lia.
    assert (Hr : (Z.to_nat (py_int (SAMPLE_RATE * release)) <= length w)%nat)
      by lia.
    rewrite apply_envelope_clamped in H by assumption.
    assert (Hw : w' = zip_with Rmult w
                        (envelope_of (length w)
                           (Z.to_nat (py_int (SAMPLE_RATE * attack)))
                           (Z.to_nat (py_int (SAMPLE_RATE * release)))))
      by congruence.
    rewrite Hw. split.
    + apply zip_with_length. now rewrite envelope_of_length.
    + intros i. now apply enveloped_amplitude.
Qed.

(** Four samples under overlapping windows of three samples each. *)
Lemma envelope_never_amplifies_witness :
  length (zip_with Rmult [1; -2; 3; -4] (envelope_of 4 3 3))
  = length [1; -2; 3; -4] /\
  forall i : nat,
    Rabs (nth i (zip_with Rmult [1; -2; 3; -4] (envelope_of 4 3 3)) 0)
    <= Rabs (nth i [1; -2; 3; -4] 0).
Proof.
  apply (envelope_never_amplifies [1; -2; 3; -4] _ (3 / 48000) (3 / 48000)).
  refine (apply_envelope_ok [1; -2; 3; -4] (3 / 48000) (3 / 48000) 3 3
            _ _ _ _);
    try (simpl; lia); now samples_of 3%Z.
Defined.

(** X10: the ends of an enveloped waveform, for windows that each fit in a
    non-empty waveform.  An attack window of at least one sample silences
    the first sample, unless the release window covers the whole waveform.
    A release window of at least two samples silences the last sample; a
    release window of exactly one sample leaves the last sample as it
    was. *)
Theorem envelope_ends (w : list R) (attack release : R) (a r : nat) :
  py_int (SAMPLE_RATE * attack) = Z.of_nat a ->
  py_int (SAMPLE_RATE * release) = Z.of_nat r ->
  (a <= length w)%nat -> (r <= length w)%nat -> (1 <= length w)%nat ->
  exists w',
    apply_envelope w attack release = Ok w' /\
    ((1 <= a)%nat -> (r < length w)%nat -> nth 0 w' 0 = 0) /\
    ((2 <= r)%nat -> last w' 0 = 0) /\
    (r = 1%nat -> last w' 0 = last w 0).
Proof.
  intros Ea Er Ha Hr Hn.
  exists (zip_with Rmult w (envelope_of (length w) a r)).
  split; [now apply apply_envelope_ok |].
  assert (L : length (zip_with Rmult w (envelope_of (length w) a r))
              = length w)
    by (apply zip_with_length; now rewrite envelope_of_length).
  split; [| split].
  - intros Ha1 Hrn.
    rewrite enveloped_nth, envelope_of_nth_attack by (auto; lia).
    unfold attack_ramp. rewrite linspace_samples_nth by lia.
    simpl INR. destruct (0 <? a - 1)%nat; lra.
  - intros Hr2. rewrite last_as_nth, L.
    rewrite enveloped_nth, envelope_of_nth_release by (auto; lia).
    unfold release_ramp. rewrite linspace_samples_nth by lia.
    replace (0 <? r - 1)%nat with true by (symmetry; apply Nat.ltb_lt; lia).
    replace (length w - 1 - (length w - r))%nat with (r - 1)%nat by lia.
    replace (INR (r - 1) * ((0 - 1) / INR (r - 1)) + 1) with 0
      by (field; apply not_0_INR; lia).
    lra.
  - intros ->. rewrite !last_as_nth, L.
    rewrite enveloped_nth, envelope_of_nth_release by (auto; lia).
    replace (length w - 1 - (length w - 1))%nat with 0%nat by lia.
    unfold release_ramp, linspace_samples. simpl. lra.
Qed.

(** Four samples with an attack window of two samples and a release window
    of one sample. *)
Lemma envelope_ends_witness :
  exists w',
    apply_envelope [1; 2; 3; 4] (2 / 48000) (1 / 48000) = Ok w' /\
    ((1 <= 2)%nat -> (1 < length [1; 2; 3; 4])%nat -> nth 0 w' 0 = 0) /\
    ((2 <= 1)%nat -> last w' 0 = 0) /\
    (1%nat = 1%nat -> last w' 0 = last [1; 2; 3; 4] 0).
Proof.
  apply (envelope_ends [1; 2; 3; 4] (2 / 48000) (1 / 48000) 2 1).
  - now samples_of 2%Z.
  - now samples_of 1%Z.
  - simpl; lia.
  - simpl; lia.
  - simpl; lia.
Defined.

(** X11: the ramps are linear.  For windows that each fit in the waveform,
    a sample at index [i] of an attack window of at least two samples, before
    the release window, is the original times [i / (a - 1)]; a sample at
    offset [j] of a release window of at least two samples is the original
    times [1 - j / (r - 1)]. *)
Theorem envelope_linear_ramps (w : list R) (attack release : R) (a r : nat) :
  py_int (SAMPLE_RATE * attack) = Z.of_nat a ->
  py_int (SAMPLE_RATE * release) = Z.of_nat r ->
  (a <= length w)%nat -> (r <= length w)%nat ->
  exists w',
    apply_envelope w attack release = Ok w' /\
    (forall i : nat,
        (2 <= a)%nat -> (i < a)%nat -> (i < length w - r)%nat ->
        nth i w' 0 = nth i w 0 * (INR i / INR (a - 1))) /\
    (forall j : nat,
        (2 <= r)%nat -> (j < r)%nat ->
        nth (length w - r + j) w' 0
        = nth (length w - r + j) w 0 * (1 - INR j / INR (r - 1))).
Proof.
  intros Ea Er Ha Hr.
  exists (zip_with Rmult w (envelope_of (length w) a r)).
  split; [now apply apply_envelope_ok |]. split.
  - intros i Ha2 Hi Hbefore.
    rewrite enveloped_nth, envelope_of_nth_attack by (auto; lia).
    unfold attack_ramp. rewrite linspace_samples_nth by lia.
    replace (0 <? a - 1)%nat with true by (symmetry; apply Nat.ltb_lt; lia).
    f_equal. field. apply not_0_INR. lia.
  - intros j Hr2 Hj.
    rewrite enveloped_nth, envelope_of_nth_release by (auto; lia).
    replace (length w - r + j - (length w - r))%nat with j by lia.
    unfold release_ramp. rewrite linspace_samples_nth by lia.
    replace (0 <? r - 1)%nat with true by (symmetry; apply Nat.ltb_lt; lia).
    f_equal. field. apply not_0_INR. lia.
Qed.

(** Eight samples with an attack window of three samples and a release
    window of three samples. *)
Lemma envelope_linear_ramps_witness :
  exists w',
    apply_envelope (ones 8) (3 / 48000) (3 / 48000) = Ok w' /\
    (forall i : nat,
        (2 <= 3)%nat -> (i < 3)%nat -> (i < length (ones 8) - 3)%nat ->
        nth i w' 0 = nth i (ones 8) 0 * (INR i / INR (3 - 1))) /\
    (forall j : nat,
        (2 <= 3)%nat -> (j < 3)%nat ->
        nth (length (ones 8) - 3 + j) w' 0
        = nth (length (ones 8) - 3 + j) (ones 8) 0
          * (1 - INR j / INR (3 - 1))).
Proof.
  apply (envelope_linear_ramps (ones 8) (3 / 48000) (3 / 48000) 3 3).
  - now samples_of 3%Z.
  - now samples_of 3%Z.
  - simpl; lia.
  - simpl; lia.
Defined.

(** * Further properties of the exporter *)

Lemma wrap16_range (z : Z) : (-32768 <= wrap16 z <= 32767)%Z.
Proof.
  unfold wrap16.
  pose proof (Z.mod_pos_bound (z + 32768) 65536 ltac:(lia)). lia.
Qed.

Lemma py_int_opp (y : R) : py_int (- y) = (- py_int y)%Z.
Proof.
  unfold py_int.
  destruct (Rle_dec 0 (- y)) as [Hn | Hn], (Rle_dec 0 y) as [Hp | Hp].
  - assert (y = 0) by lra. subst y. rewrite Ropp_0.
    replace (Int_part 0) with 0%Z by (apply Int_part_spec; lra).
    reflexivity.
  - lia.
  - now rewrite Ropp_involutive.
  - lra.
Qed.

Lemma Int_part_nonneg (u : R) : 0 <= u -> (0 <= Int_part u)%Z.
Proof.
  intros Hu. destruct (base_Int_part u) as [H1 H2].
  assert (H : IZR (-1) < IZR (Int_part u)) by lra.
  apply lt_IZR in H. lia.
Qed.

Lemma py_int_toward_zero (y : R) :
  Rabs (IZR (py_int y) - y) < 1 /\ Rabs (IZR (py_int y)) <= Rabs y.
Proof.
  unfold py_int. destruct (Rle_dec 0 y) as [Hy | Hy].
  - destruct (base_Int_part y) as [H1 H2].
    assert (H0 : 0 <= IZR (Int_part y))
      by (apply IZR_le; now apply Int_part_nonneg).
    split.
    + apply Rabs_def1; lra.
    + rewrite !Rabs_right by lra. lra.
  - destruct (base_Int_part (- y)) as [H1 H2].
    assert (H0 : 0 <= IZR (Int_part (- y)))
      by (apply IZR_le; apply Int_part_nonneg; lra).
    rewrite opp_IZR. split.
    + apply Rabs_def1; lra.
    + rewrite (Rabs_left y) by lra.
      rewrite <- Rabs_Ropp, Ropp_involutive, Rabs_right by lra. lra.
Qed.

Lemma py_int_monotone (x y : R) : x <= y -> (py_int x <= py_int y)%Z.
Proof.
  intros Hxy.
  assert (Hfloor : forall u v, 0 <= u <= v -> (Int_part u <= Int_part v)%Z).
  { intros u v [Hu Huv].
    destruct (base_Int_part u) as [U1 U2], (base_Int_part v) as [V1 V2].
    assert (H : IZR (Int_part u) < IZR (Int_part v + 1))
      by (rewrite plus_IZR; lra).
    apply lt_IZR in H. lia. }
  pose proof Int_part_nonneg as Hpos.
  unfold py_int.
  destruct (Rle_dec 0 x) as [Hx | Hx], (Rle_dec 0 y) as [Hy | Hy].
  - apply Hfloor. lra.
  - lra.
  - pose proof (Hpos (- x) ltac:(lra)). pose proof (Hpos y Hy). lia.
  - pose proof (Hfloor (- y) (- x) ltac:(lra)). lia.
Qed.

(** X12: whatever the samples, [np.int16(wave * 32767)] has one value per
    sample, each within [-32768 .. 32767], and the byte stream handed to the
    encoder has two bytes per sample, each within [0 .. 255]. *)
Theorem pcm_shape (wave : list R) :
  length (normalize wave) = length wave /\
  Forall (fun z => (-32768 <= z <= 32767)%Z) (normalize wave) /\
  length (tobytes (normalize wave)) = (2 * length wave)%nat /\
  Forall (fun b => (0 <= b <= 255)%Z) (tobytes (normalize wave)).
Proof.
  unfold normalize, tobytes.
  induction wave as [| x wave [IH1 [IH2 [IH3 IH4]]]].
  - repeat split; constructor.
  - cbn [map flat_map length]. repeat split.
    + now rewrite IH1.
    + constructor; [apply wrap16_range | exact IH2].
    + rewrite length_app, IH3. simpl. lia.
    + apply Forall_app. split; [| exact IH4].
      unfold int16_bytes.
      set (u := (to_int16 (x * 32767) mod 65536)%Z).
      assert (Hu : (0 <= u < 65536)%Z)
        by (apply Z.mod_pos_bound; lia).
      repeat constructor.
      * apply Z.mod_pos_bound. lia.
      * pose proof (Z.mod_pos_bound u 256 ltac:(lia)). lia.
      * apply Z.div_pos; lia.
      * assert (u / 256 < 256)%Z by (apply Z.div_lt_upper_bound; lia). lia.
Qed.

Lemma int16_bytes_decode (z : Z) (rest : list Z) :
  (-32768 <= z <= 32767)%Z ->
  s16le_decode (int16_bytes z ++ rest) = z :: s16le_decode rest.
Proof.
  intros Hz. unfold int16_bytes. cbn [app s16le_decode]. f_equal.
  set (u := (z mod 65536)%Z).
  replace (u mod 256 + 256 * (u / 256))%Z with u
    by (rewrite (Z.div_mod u 256) at 1; lia).
  unfold wrap16, u.
  destruct (Z.le_gt_cases 0 z) as [Hpos | Hneg].
  - rewrite (Z.mod_small z) by lia. rewrite Z.mod_small by lia. lia.
  - replace (z mod 65536)%Z with (z + 65536)%Z
      by (apply (Z.mod_unique _ _ (-1)); lia).
    replace ((z + 65536 + 32768) mod 65536)%Z with (z + 32768)%Z
      by (apply (Z.mod_unique _ _ 1); lia).
    lia.
Qed.

Lemma s16le_round_trip (pcm : list Z) :
  Forall (fun z => (-32768 <= z <= 32767)%Z) pcm ->
  s16le_decode (tobytes pcm) = pcm.
Proof.
  unfold tobytes. induction 1 as [| z pcm Hz _ IH]; [reflexivity |].
  cbn [flat_map]. rewrite int16_bytes_decode by assumption. now rewrite IH.
Qed.

(** X13: the bytes [save_as_opus] hands to the encoder, read back as the
    [s16le] stream it announces on the command line, are exactly the values
    [np.int16(wave * 32767)], for every waveform. *)
Theorem encoder_input_round_trip (wave : list R) :
  s16le_decode (tobytes (normalize wave)) = normalize wave.
Proof.
  apply s16le_round_trip. unfold normalize.
  induction wave as [| x wave IH]; constructor;
    [apply wrap16_range | exact IH].
Qed.

(** X14: quantisation of a sample [x] with [-1 <= x <= 1].  The emitted
    value differs from [32767 x] by less than one unit, is never larger in
    absolute value, and the opposite sample gives the opposite value:
    positive and negative samples are truncated alike. *)
Theorem quantisation (x : R) :
  -1 <= x <= 1 ->
  Rabs (IZR (to_int16 (x * 32767)) - x * 32767) < 1 /\
  Rabs (IZR (to_int16 (x * 32767))) <= Rabs (x * 32767) /\
  to_int16 (- x * 32767) = (- to_int16 (x * 32767))%Z.
Proof.
  intros Hx.
  pose proof (py_int_range (x * 32767) 32767 ltac:(lra)) as Hr.
  pose proof (py_int_range (- x * 32767) 32767 ltac:(lra)) as Hr'.
  unfold to_int16. rewrite !wrap16_in_range by lia.
  destruct (py_int_toward_zero (x * 32767)) as [H1 H2].
  split; [exact H1 |]. split; [exact H2 |].
  replace (- x * 32767) with (- (x * 32767)) by ring. apply py_int_opp.
Qed.

(** The sample 3/10, the loudest volume of the cues. *)
Lemma quantisation_witness :
  Rabs (IZR (to_int16 (3 / 10 * 32767)) - 3 / 10 * 32767) < 1 /\
  Rabs (IZR (to_int16 (3 / 10 * 32767))) <= Rabs (3 / 10 * 32767) /\
  to_int16 (- (3 / 10) * 32767) = (- to_int16 (3 / 10 * 32767))%Z.
Proof.
  apply (quantisation (3 / 10)). lra.
Defined.

(** X15: within [-1 .. 1] the conversion preserves order: a larger sample
    never gets a smaller value. *)
Theorem quantisation_monotone (x y : R) :
  -1 <= x -> x <= y -> y <= 1 ->
  (to_int16 (x * 32767) <= to_int16 (y * 32767))%Z.
Proof.
  intros Hx Hxy Hy.
  pose proof (py_int_range (x * 32767) 32767 ltac:(lra)) as Hrx.
  pose proof (py_int_range (y * 32767) 32767 ltac:(lra)) as Hry.
  unfold to_int16. rewrite !wrap16_in_range by lia.
  apply py_int_monotone. lra.
Qed.

(** The samples -1/4 and 1/2. *)
Lemma quantisation_monotone_witness :
  (to_int16 (- (1 / 4) * 32767) <= to_int16 (1 / 2 * 32767))%Z.
Proof.
  apply (quantisation_monotone (- (1 / 4)) (1 / 2)); lra.
Defined.

(** * Further properties of the run *)

Lemma generate_tone_bounded (f duration volume : R) :
  0 <= duration ->
  exists w,
    generate_tone f duration volume = Ok w /\
    Z.of_nat (length w) = py_int (SAMPLE_RATE * duration) /\
    forall i : nat, Rabs (nth i w 0) <= Rabs volume.
Proof.
  intros Hd. eexists. split; [now apply generate_tone_ok |].
  pose proof (samples_nonneg _ Hd) as Hn.
  split; [rewrite length_map, linspace_samples_length; lia |].
  intros i. set (t := linspace_samples 0 duration _ false).
  destruct (Nat.lt_ge_cases i (length t)) as [Hi | Hi].
  - rewrite map_nth_in by assumption. rewrite Rabs_mult.
    pose proof (SIN_bound (2 * PI * f * nth i t 0)) as Hsin.
    assert (Rabs (sin (2 * PI * f * nth i t 0)) <= 1)
      by (apply Rabs_le; lra).
    pose proof (Rabs_pos volume). nra.
  - rewrite nth_overflow by now rewrite length_map.
    rewrite Rabs_R0. apply Rabs_pos.
Qed.

(** A generator call of a cue: [z] samples, each within [c]. *)
Lemma cue_wave (gen : R -> R -> result (list R)) (duration volume c : R)
  (z : Z) :
  (forall d v, 0 <= d ->
     exists w, gen d v = Ok w /\
               Z.of_nat (length w) = py_int (SAMPLE_RATE * d) /\
               forall i : nat, Rabs (nth i w 0) <= Rabs v) ->
  SAMPLE_RATE * duration = IZR z -> (0 <= z)%Z -> Rabs volume <= c ->
  exists w,
    gen duration volume = Ok w /\ length w = Z.to_nat z /\
    forall i : nat, Rabs (nth i w 0) <= c.
Proof.
  intros Hgen Hz Hpos Hc.
  assert (Hd : 0 <= duration).
  { apply IZR_le in Hpos. rewrite <- Hz in Hpos. unfold SAMPLE_RATE in Hpos.
    lra. }
  destruct (Hgen duration volume Hd) as [w [E [L B]]].
  exists w. split; [exact E |]. split.
  - rewrite Hz, py_int_IZR in L. lia.
  - intros i. specialize (B i). lra.
Qed.

Lemma cue_envelope (w : list R) (attack release c : R) (za zr : Z) :
  SAMPLE_RATE * attack = IZR za -> SAMPLE_RATE * release = IZR zr ->
  (0 <= za <= Z.of_nat (length w))%Z ->
  (0 <= zr <= Z.of_nat (length w))%Z ->
  (forall i : nat, Rabs (nth i w 0) <= c) ->
  exists w',
    apply_envelope w attack release = Ok w' /\ length w' = length w /\
    forall i : nat, Rabs (nth i w' 0) <= c.
Proof.
  intros Ha Hr Hza Hzr Hc.
  exists (zip_with Rmult w
            (envelope_of (length w) (Z.to_nat za) (Z.to_nat zr))).
  split; [| split].
  - apply apply_envelope_ok; try lia.
    + rewrite Ha, py_int_IZR. lia.
    + rewrite Hr, py_int_IZR. lia.
  - apply zip_with_length. rewrite envelope_of_length; lia.
  - intros i.
    apply Rle_trans with (Rabs (nth i w 0)); [| apply Hc].
    apply enveloped_amplitude; auto; lia.
Qed.

Lemma app_bounded (l1 l2 : list R) (c : R) :
  (forall i : nat, Rabs (nth i l1 0) <= c) ->
  (forall i : nat, Rabs (nth i l2 0) <= c) ->
  forall i : nat, Rabs (nth i (l1 ++ l2) 0) <= c.
Proof.
  intros H1 H2 i. destruct (Nat.lt_ge_cases i (length l1)) as [Hi | Hi].
  - rewrite app_nth1 by assumption. apply H1.
  - rewrite app_nth2 by assumption. apply H2.
Qed.

Ltac quiet := rewrite Rabs_right by lra; lra.

(** [main] with what it exports: the eight waveforms have 14400, 14400,
    14400, 9600, 19200, 28800, 24000 and 2400 samples, all within 3/10 in
    absolute value. *)
Lemma main_waves (enc : encoder) :
  exists ws : list (list R),
    map (fun w => Z.of_nat (length w)) ws
    = [14400; 14400; 14400; 9600; 19200; 28800; 24000; 2400]%Z /\
    Forall (fun w => forall i : nat, Rabs (nth i w 0) <= 3 / 10) ws /\
    main enc =
    ([Print MsgGenerating; Print MsgOutputDir; Mkdir]
       ++ batch_events enc (combine ws cue_files)
       ++ [Print MsgAllGenerated; Print MsgFilesSaved],
     Ok tt).
Proof.
  pose proof (fun f => generate_tone_bounded f) as Tone.
  pose proof (fun fs => generate_multi_tone_bounded fs) as Chord.
  pose proof (fun f0 f1 => generate_sweep_bounded f0 f1) as Sweep.
  destruct (cue_wave _ 0.3 0.25 (3 / 10) 14400 (Chord [800; 1000; 1200]))
    as [g1 [G1 [LG1 BG1]]]; [rate | lia | quiet |].
  destruct (cue_envelope g1 0.01 0.1 (3 / 10) 480 4800)
    as [w1 [W1 [LW1 BW1]]]; [rate | rate | lia | lia | exact BG1 |].
  destruct (cue_wave _ 0.3 0.3 (3 / 10) 14400 (Tone 600))
    as [g2 [G2 [LG2 BG2]]]; [rate | lia | quiet |].
  destruct (cue_envelope g2 0.01 0.1 (3 / 10) 480 4800)
    as [w2 [W2 [LW2 BW2]]]; [rate | rate | lia | lia | exact BG2 |].
  destruct (cue_wave _ 0.3 0.3 (3 / 10) 14400 (Tone 400))
    as [g3 [G3 [LG3 BG3]]]; [rate | lia | quiet |].
  destruct (cue_envelope g3 0.02 0.1 (3 / 10) 960 4800)
    as [w3 [W3 [LW3 BW3]]]; [rate | rate | lia | lia | exact BG3 |].
  destruct (cue_wave _ 0.2 0.3 (3 / 10) 9600 (Chord [200; 210]))
    as [g4 [G4 [LG4 BG4]]]; [rate | lia | quiet |].
  destruct (cue_envelope g4 0.01 0.05 (3 / 10) 480 2400)
    as [w4 [W4 [LW4 BW4]]]; [rate | rate | lia | lia | exact BG4 |].
  destruct (cue_wave _ 0.4 0.25 (3 / 10) 19200 (Sweep 400 800))
    as [g5 [G5 [LG5 BG5]]]; [rate | lia | quiet |].
  destruct (cue_envelope g5 0.01 0.1 (3 / 10) 480 4800)
    as [w5 [W5 [LW5 BW5]]]; [rate | rate | lia | lia | exact BG5 |].
  destruct (cue_wave _ 0.15 0.3 (3 / 10) 7200 (Tone 523))
    as [t1 [T1 [LT1 BT1]]]; [rate | lia | quiet |].
  destruct (cue_wave _ 0.15 0.3 (3 / 10) 7200 (Tone 659))
    as [t2 [T2 [LT2 BT2]]]; [rate | lia | quiet |].
  destruct (cue_wave _ 0.3 0.3 (3 / 10) 14400 (Tone 784))
    as [t3 [T3 [LT3 BT3]]]; [rate | lia | quiet |].
  destruct (cue_envelope t1 0.01 0.05 (3 / 10) 480 2400)
    as [p1 [P1 [LP1 BP1]]]; [rate | rate | lia | lia | exact BT1 |].
  destruct (cue_envelope t2 0.01 0.05 (3 / 10) 480 2400)
    as [p2 [P2 [LP2 BP2]]]; [rate | rate | lia | lia | exact BT2 |].
  destruct (cue_envelope t3 0.01 0.15 (3 / 10) 480 7200)
    as [p3 [P3 [LP3 BP3]]]; [rate | rate | lia | lia | exact BT3 |].
  destruct (cue_wave _ 0.5 0.25 (3 / 10) 24000 (Sweep 400 200))
    as [g7 [G7 [LG7 BG7]]]; [rate | lia | quiet |].
  destruct (cue_envelope g7 0.02 0.15 (3 / 10) 960 7200)
    as [w7 [W7 [LW7 BW7]]]; [rate | rate | lia | lia | exact BG7 |].
  destruct (cue_wave _ 0.05 0.2 (3 / 10) 2400 (Tone 1200))
    as [g8 [G8 [LG8 BG8]]]; [rate | lia | quiet |].
  destruct (cue_envelope g8 0.005 0.02 (3 / 10) 240 960)
    as [w8 [W8 [LW8 BW8]]]; [rate | rate | lia | lia | exact BG8 |].
  exists [w1; w2; w3; w4; w5; p1 ++ p2 ++ p3; w7; w8].
  split; [| split].
  - cbn [map]. rewrite !length_app.
    rewrite LW1, LW2, LW3, LW4, LW5, LP1, LP2, LP3, LW7, LW8.
    rewrite LG1, LG2, LG3, LG4, LG5, LT1, LT2, LT3, LG7, LG8.
    repeat f_equal; lia.
  - repeat (apply Forall_cons;
            [first [assumption
                   | apply app_bounded;
                     [assumption | now apply app_bounded]] |]).
    apply Forall_nil.
  - unfold main.
    rewrite G1, iobind_lift_Ok, W1, iobind_lift_Ok.
    rewrite G2, iobind_lift_Ok, W2, iobind_lift_Ok.
    rewrite G3, iobind_lift_Ok, W3, iobind_lift_Ok.
    rewrite G4, iobind_lift_Ok, W4, iobind_lift_Ok.
    rewrite G5, iobind_lift_Ok, W5, iobind_lift_Ok.
    rewrite T1, iobind_lift_Ok, T2, iobind_lift_Ok, T3, iobind_lift_Ok.
    rewrite P1, iobind_lift_Ok, P2, iobind_lift_Ok, P3, iobind_lift_Ok.
    rewrite G7, iobind_lift_Ok, W7, iobind_lift_Ok.
    rewrite G8, iobind_lift_Ok, W8, iobind_lift_Ok.
    rewrite !save_as_opus_eq.
    unfold emit. rewrite !iobind_events.
    cbn [fst snd batch_events combine cue_files flat_map app].
    rewrite app_nil_r, <- !app_assoc. reflexivity.
Qed.

Lemma encoder_inputs_app (tr1 tr2 : list event) :
  encoder_inputs (tr1 ++ tr2) = encoder_inputs tr1 ++ encoder_inputs tr2.
Proof.
  induction tr1 as [| [m | | f b | f i rc] tr1 IH]; simpl; congruence.
Qed.

Lemma encoder_inputs_batch
  (ffmpeg : string -> list Z -> Z) (cues : list (list R * string)) :
  encoder_inputs (batch_events (Some ffmpeg) cues) =
  map (fun c => (snd c, tobytes (normalize (fst c)))) cues.
Proof.
  induction cues as [| [w f] cues IH]; [reflexivity |].
  unfold batch_events in *. cbn [flat_map fst snd map].
  now rewrite encoder_inputs_app, IH, export_events_Some.
Qed.

Lemma tobytes_length (pcm : list Z) :
  length (tobytes pcm) = (2 * length pcm)%nat.
Proof.
  unfold tobytes. induction pcm as [| z pcm IH]; [reflexivity |].
  cbn [flat_map]. rewrite length_app, IH. simpl. lia.
Qed.

Lemma normalize_range (wave : list R) :
  Forall (fun z => (-32768 <= z <= 32767)%Z) (normalize wave).
Proof.
  unfold normalize.
  induction wave as [| x wave IH]; constructor;
    [apply wrap16_range | exact IH].
Qed.

Lemma to_int16_quiet (x : R) :
  Rabs x <= 3 / 10 -> (-9830 <= to_int16 (x * 32767) <= 9830)%Z.
Proof.
  intros Hx.
  assert (Hb : - (3 / 10) <= x <= 3 / 10).
  { split; [pose proof (Rle_abs (- x)); rewrite Rabs_Ropp in *; lra
           | pose proof (Rle_abs x); lra]. }
  pose proof (py_int_range (x * 32767) 32767 ltac:(lra)) as Hr.
  unfold to_int16. rewrite wrap16_in_range by lia.
  destruct (py_int_toward_zero (x * 32767)) as [_ Habs].
  assert (Hy : Rabs (x * 32767) < 9831).
  { apply Rabs_def1; lra. }
  assert (Hz : Rabs (IZR (py_int (x * 32767))) < IZR 9831) by lra.
  apply Rabs_def2 in Hz. destruct Hz as [Hhi Hlo].
  rewrite <- opp_IZR in Hlo.
  apply lt_IZR in Hhi. apply lt_IZR in Hlo. lia.
Qed.

Lemma normalize_quiet (wave : list R) :
  (forall i : nat, Rabs (nth i wave 0) <= 3 / 10) ->
  Forall (fun z => (-9830 <= z <= 9830)%Z) (normalize wave).
Proof.
  intros Hb. unfold normalize. apply Forall_forall. intros z Hz.
  apply in_map_iff in Hz. destruct Hz as [x [<- Hx]].
  apply to_int16_quiet.
  destruct (In_nth _ _ 0 Hx) as [i [_ <-]]. apply Hb.
Qed.

(** X16: for every encoder that is present, [main] feeds it eight byte
    streams, one per cue file in order, of 28800, 28800, 28800, 19200,
    38400, 57600, 48000 and 4800 bytes: two bytes for each of the
    [int(SAMPLE_RATE * duration)] samples of the cue, the three notes of the
    victory cue being laid end to end. *)
Theorem main_encoder_inputs (ffmpeg : string -> list Z -> Z) :
  map (fun p => (fst p, Z.of_nat (length (snd p))))
    (encoder_inputs (fst (main (Some ffmpeg))))
  = [("perfect.opus", 28800); ("great.opus", 28800); ("ok.opus", 28800);
     ("miss.opus", 19200); ("combo.opus", 38400); ("victory.opus", 57600);
     ("failure.opus", 48000); ("click.opus", 4800)]%string%Z.
Proof.
  destruct (main_waves (Some ffmpeg)) as [ws [L [_ E]]]. rewrite E.
  cbn [fst]. rewrite !encoder_inputs_app, encoder_inputs_batch.
  cbn [encoder_inputs app]. rewrite app_nil_r, map_map. cbn [fst snd].
  destruct ws
    as [| w1 [| w2 [| w3 [| w4 [| w5 [| w6 [| w7 [| w8 [| ? ?]]]]]]]]];
    try discriminate L.
  cbn [map] in L. injection L as L1 L2 L3 L4 L5 L6 L7 L8.
  cbn [combine cue_files map fst snd].
  rewrite !tobytes_length. unfold normalize. rewrite !length_map.
  repeat f_equal; lia.
Qed.

(** X17: for every encoder that is present, every value [main] hands to it,
    read back from the byte stream, lies within [-9830 .. 9830]: the cues
    stay within 3/10 of full scale, so the conversion to 16 bits never
    leaves its range in a run. *)
Theorem main_never_overflows (ffmpeg : string -> list Z -> Z) :
  Forall
    (fun p => Forall (fun z => (-9830 <= z <= 9830)%Z) (s16le_decode (snd p)))
    (encoder_inputs (fst (main (Some ffmpeg)))).
Proof.
  destruct (main_waves (Some ffmpeg)) as [ws [_ [B E]]]. rewrite E.
  cbn [fst]. rewrite !encoder_inputs_app, encoder_inputs_batch.
  cbn [encoder_inputs app]. rewrite app_nil_r.
  apply Forall_forall. intros p Hp.
  apply in_map_iff in Hp. destruct Hp as [[w f] [<- Hc]]. cbn [fst snd].
  rewrite s16le_round_trip by apply normalize_range.
  apply normalize_quiet.
  apply in_combine_l in Hc.
  rewrite Forall_forall in B. now apply B.
Qed.

(** * Properties of the icon generator *)

(** X18: [main] of the icon generator calls [cairosvg.svg2png] for the
    192x192 icon and then for the 512x512 icon when [cairosvg] can be
    imported (at once, or after a successful install) and [icon.svg] exists,
    whatever the conversions do: a failure of the first does not prevent
    the second.  In every other case it makes no conversion at all. *)
Theorem icons_conversions (env : Icons.world) :
  Icons.conversions (fst (Icons.main env)) =
  if Icons.ready env && Icons.svg_exists env
  then [("icon-192.png", 192, 192); ("icon-512.png", 512, 512)]%string%Z
  else [].
Proof.
  destruct env as [installed pip after svg convert].
  unfold Icons.main, Icons.install_cairosvg, Icons.ready,
    Icons.convert_svg_to_png.
  cbn [Icons.cairosvg_installed Icons.pip_installs
         Icons.importable_after_pip Icons.svg_exists Icons.svg2png].
  destruct installed, pip, after, svg; cbn; try reflexivity;
    destruct (convert 192 192 "icon-192.png"%string)%Z;
    destruct (convert 512 512 "icon-512.png"%string)%Z; reflexivity.
Qed.

(** X19: [main] of the icon generator raises exactly when [cairosvg] was
    missing, [pip] reported a successful install and the module still cannot
    be imported; the exception is the [ImportError] of its own import.  In
    every other world it returns normally, conversions that raise
    included. *)
Theorem icons_outcome (env : Icons.world) :
  (snd (Icons.main env) = Icons.Raises Icons.ImportError
   <-> Icons.cairosvg_installed env = false
       /\ Icons.pip_installs env = true
       /\ Icons.importable_after_pip env = false)
  /\ (snd (Icons.main env) = Icons.Returns tt
      <-> Icons.cairosvg_installed env = true
          \/ Icons.pip_installs env = false
          \/ Icons.importable_after_pip env = true).
Proof.
  destruct env as [installed pip after svg convert].
  unfold Icons.main, Icons.install_cairosvg.
  cbn [Icons.cairosvg_installed Icons.pip_installs
         Icons.importable_after_pip Icons.svg_exists Icons.svg2png].
  destruct installed, pip, after, svg; cbn; intuition discriminate.
Qed.

(** X20: the closing line [All icons generated successfully!] is printed
    exactly when the conversions were attempted, whether or not any of them
    succeeded; it is never printed after a failed install or a missing
    [icon.svg]. *)
Theorem icons_success_line (env : Icons.world) :
  In (Icons.Print Icons.MsgAllGenerated) (fst (Icons.main env))
  <-> Icons.ready env && Icons.svg_exists env = true.
Proof.
  destruct env as [installed pip after svg convert].
  unfold Icons.main, Icons.install_cairosvg, Icons.ready,
    Icons.convert_svg_to_png.
  cbn [Icons.cairosvg_installed Icons.pip_installs
         Icons.importable_after_pip Icons.svg_exists Icons.svg2png].
  destruct installed, pip, after, svg; cbn;
    try (split; [intros H; repeat destruct H as [H | H];
                 solve [discriminate H | contradiction H]
                | discriminate]);
    destruct (convert 192 192 "icon-192.png"%string)%Z;
    destruct (convert 512 512 "icon-512.png"%string)%Z; cbn;
    (split; [reflexivity | intros _; tauto]).
Qed.
